(** * BinanceCandlesFeed: a bounded candle buffer fed by a live stream and a backfill loop

    Shallow embedding of
    [hummingbot/data_feed/candles_data_feed/candles_data_feed.py].

    The feed keeps a [collections.deque] with a [maxlen] of one-dimensional
    numeric arrays (one array per candle, the open time at position 0).  Two
    coroutines mutate it: [_process_websocket_messages] appends at the right,
    [fill_candles_loop] extends at the left with rows fetched over REST.

    Layout: Part I holds the definitions (numbers, deque, slicing, the feed,
    the two handlers, the interleaving of the two coroutines, the exception
    and event model of the loops, task bookkeeping, construction and the
    names sent to the exchange).  Part II holds the lemmas and the theorems
    about the buffer and the two loops, Part III those about the rest of
    the class and about runs without assumptions on the environment. *)

From Stdlib Require Import Ascii String.
From Stdlib Require Import List ZArith Bool Lia.
Import ListNotations.
Local Open Scope Z_scope.

(* ================================================================= *)
(** * Part I: definitions *)
(* ================================================================= *)

(** ** Numbers

    The arrays hold whatever the JSON payloads carry (integers and decimal
    strings) or, for fetched rows, what [astype(np.float)] makes of them.  The
    feed never computes with these values; it only
    - builds an array entry from the integer open time of a live message,
    - reads an entry back with [int(...)],
    - converts fetched entries with [astype(np.float)].
    The three operations are the interface below. *)

Class Numeric (num : Type) := {
  int_of : num -> Z;          (* int(x) for an array entry x *)
  of_int : Z -> num;          (* the entry np.array makes of a Python int *)
  astype_float : num -> num;  (* x.astype(np.float) *)
  (* An integer open time survives the trip through an array entry:
     int(np.array([t, ...])[0]) == t.  Exact for decimal strings, and for
     float64 up to 2^53, which covers epoch milliseconds. *)
  int_of_int : forall z : Z, int_of (of_int z) = z
}.

(** Integers as their own entries: the instance used for concrete runs. *)
#[export] Instance Numeric_Z : Numeric Z := {
  int_of := fun z => z;
  of_int := fun z => z;
  astype_float := fun z => z;
  int_of_int := fun z => eq_refl
}.

(** ** Exceptions and results *)

Inductive exn : Type :=
| CancelledError     (* asyncio.CancelledError *)
| ConnectionError    (* builtin ConnectionError *)
| IndexError
| KeyError
| OtherError.        (* any other subclass of Exception *)

Inductive result (A : Type) : Type :=
| Ok (a : A)
| Raise (e : exn).
Arguments Ok {A} a.
Arguments Raise {A} e.

Definition is_cancelled (e : exn) : bool :=
  match e with CancelledError => true | _ => false end.

Definition is_connection_error (e : exn) : bool :=
  match e with ConnectionError => true | _ => false end.

(** ** collections.deque(maxlen=n) *)

Section Deque.
Context {A : Type}.

(** [d.append(x)]: add at the right, then drop from the left when the
    length exceeds [maxlen]. *)
Definition deque_append (maxlen : nat) (d : list A) (x : A) : list A :=
  let d' := d ++ [x] in
  if (maxlen <? length d')%nat then tl d' else d'.

(** [d.appendleft(x)]: add at the left, then drop from the right when the
    length exceeds [maxlen]. *)
Definition deque_appendleft (maxlen : nat) (d : list A) (x : A) : list A :=
  let d' := x :: d in
  if (maxlen <? length d')%nat then removelast d' else d'.

(** [d.extendleft(xs)]: [appendleft] for every item in turn; with
    [maxlen == 0] the iterable is only consumed. *)
Definition deque_extendleft (maxlen : nat) (d : list A) (xs : list A) : list A :=
  if (maxlen =? 0)%nat then d else fold_left (deque_appendleft maxlen) xs d.

(** ** Slices [a[start:stop]] with Python's handling of negative and
       out-of-range bounds *)

Definition slice_index (n i : Z) : Z :=
  if i <? 0 then Z.max (i + n) 0 else Z.min i n.

Definition py_slice (start stop : Z) (l : list A) : list A :=
  let n := Z.of_nat (length l) in
  let lo := slice_index n start in
  let hi := slice_index n stop in
  firstn (Z.to_nat (hi - lo)) (skipn (Z.to_nat lo) l).

End Deque.

(** ** The feed *)

Section Feed.
Context {num : Type} `{Numeric num}.

(** One candle: a one-dimensional array, the open time first. *)
Definition row : Type := list num.

(** The attributes of [BinanceCandlesFeed] that the loops share. *)
Record feed : Type := mkFeed {
  _candles : list row;        (* deque contents, oldest first *)
  maxlen : nat;               (* self._candles.maxlen = max_records *)
  _ws_ready_event : bool      (* asyncio.Event: is_set() *)
}.

(** [__init__]: an empty deque of the given capacity, event cleared. *)
Definition init_feed (max_records : nat) : feed :=
  {| _candles := []; maxlen := max_records; _ws_ready_event := false |}.

Definition set_candles (f : feed) (d : list row) : feed :=
  {| _candles := d; maxlen := maxlen f; _ws_ready_event := _ws_ready_event f |}.

Definition set_ready (f : feed) : feed :=
  {| _candles := _candles f; maxlen := maxlen f; _ws_ready_event := true |}.

(** [is_ready]: [len(self._candles) == self._candles.maxlen]. *)
Definition is_ready (f : feed) : bool :=
  (length (_candles f) =? maxlen f)%nat.

(** [self._candles.maxlen - len(self._candles)]. *)
Definition missing_records (f : feed) : Z :=
  Z.of_nat (maxlen f) - Z.of_nat (length (_candles f)).

(** ** Live stream messages *)

(** The ["k"] object of a kline event. *)
Record kline : Type := mkKline {
  k_t : Z;      (* open time *)
  k_o : num; k_l : num; k_h : num; k_c : num; k_v : num;
  k_T : num;    (* close time *)
  k_q : num; k_n : num; k_V : num; k_Q : num
}.

(** [ws_response.data]: [None], or a dict with an optional ["e"] and an
    optional ["k"]. *)
Inductive ws_data : Type :=
| DataNone
| DataDict (e : option string) (k : option kline).

(** [np.array([timestamp, open, low, high, close, volume, close_ts,
    quote_asset_volume, n_trades, taker_buy_base_volume,
    taker_buy_quote_volume])]. *)
Definition kline_array (k : kline) : row :=
  [of_int (k_t k); k_o k; k_l k; k_h k; k_c k; k_v k; k_T k;
   k_q k; k_n k; k_V k; k_Q k].

Definition is_kline_event (e : option string) : bool :=
  match e with
  | Some s => String.eqb s "kline"%string
  | None => false
  end.

(** The body of the [async for] in [_process_websocket_messages], for one
    message. *)
Definition process_message (f : feed) (data : ws_data) : result feed :=
  match data with
  | DataNone => Ok f
  | DataDict e k =>
      if is_kline_event e then
        match k with
        | None => Raise KeyError
        | Some k =>
            if (length (_candles f) =? 0)%nat then
              Ok (set_ready
                    (set_candles f (deque_append (maxlen f) (_candles f) (kline_array k))))
            else
              match last (_candles f) [] with       (* self._candles[-1] *)
              | [] => Raise IndexError                (* ...[0] of an empty array *)
              | x :: _ =>
                  if negb (k_t k =? int_of x) then
                    Ok (set_ready
                          (set_candles f
                             (deque_append (maxlen f) (_candles f) (kline_array k))))
                  else Ok (set_ready f)
              end
        end
      else Ok f
  end.

(** ** Historical rows *)

(** [np.array(candles)[:, :-1].astype(np.float)] on the decoded REST
    response.  An empty response gives a one-dimensional array, and so does
    a ragged one (an object array): the two-dimensional index raises
    [IndexError]. *)
Definition fetch_candles_array (response : list (list num)) : result (list row) :=
  match response with
  | [] => Raise IndexError
  | r0 :: rest =>
      if forallb (fun r => (length r =? length r0)%nat) rest then
        Ok (map (fun r => map astype_float (py_slice 0 (-1) r)) response)
      else Raise IndexError
  end.

(** What one pass of [fill_candles_loop] decides before it awaits. *)
Inductive fill_decision : Type :=
| FillSkip
| FillRequest (end_timestamp : num) (limit : Z).

(** The synchronous prefix of one pass: the gate test, the missing count
    and [end_timestamp = self._candles[0][0]]. *)
Definition fill_candles_begin (f : feed) : result fill_decision :=
  if _ws_ready_event f then
    let missing := missing_records f in
    if 0 <? missing then
      match _candles f with
      | [] => Raise IndexError
      | [] :: _ => Raise IndexError
      | (x :: _) :: _ => Ok (FillRequest x (missing + 1))
      end
    else Ok FillSkip
  else Ok FillSkip.

(** The synchronous suffix, run when [fetch_candles] has returned [candles]:
    the missing count is read again and
    [self._candles.extendleft(candles[-(missing_records + 1):-1][::-1])]. *)
Definition kept_rows (f : feed) (candles : list row) : list row :=
  py_slice (- (missing_records f + 1)) (-1) candles.

Definition fill_candles_apply (f : feed) (candles : list row) : feed :=
  set_candles f
    (deque_extendleft (maxlen f) (_candles f) (rev (kept_rows f candles))).

End Feed.

Arguments feed num : clear implicits.
Arguments kline num : clear implicits.
Arguments ws_data num : clear implicits.
Arguments fill_decision num : clear implicits.
Arguments row num : clear implicits.

(** ** The two coroutines side by side

    The event loop runs one coroutine at a time and switches only at an
    [await].  [fill_candles_loop] awaits between reading [end_timestamp]
    and mutating the deque, so live messages can be handled in between;
    [_process_websocket_messages] handles a message without awaiting.  A
    run of the feed is therefore a sequence of the labels below. *)

Section Interleaving.
Context {num : Type} `{Numeric num}.

(** Where [fill_candles_loop] stands. *)
Inductive fill_pc : Type :=
| FillIdle                              (* in [_sleep], or about to test the gate *)
| FillAwaiting (end_timestamp : num)    (* inside [await self.fetch_candles(...)] *)
| FillStopped.                          (* left the loop through an exception *)

Record system : Type := mkSystem {
  sys_feed : feed num;
  sys_fill : fill_pc
}.

Inductive label : Type :=
| LMessage (data : ws_data num)                   (* one websocket message is handled *)
| LFillTick                                       (* the fill loop runs up to its await *)
| LFillReturn (r : result (list (list num))).     (* the REST call returns or raises *)

Definition init_system (max_records : nat) : system :=
  {| sys_feed := init_feed max_records; sys_fill := FillIdle |}.

Definition exec (s : system) (l : label) : system :=
  match l with
  | LMessage data =>
      match process_message (sys_feed s) data with
      | Ok f' => {| sys_feed := f'; sys_fill := sys_fill s |}
      | Raise _ => s                    (* raised before any mutation *)
      end
  | LFillTick =>
      match sys_fill s with
      | FillIdle =>
          match fill_candles_begin (sys_feed s) with
          | Ok FillSkip => s
          | Ok (FillRequest end_timestamp _) =>
              {| sys_feed := sys_feed s; sys_fill := FillAwaiting end_timestamp |}
          | Raise _ =>                  (* raised outside the try block *)
              {| sys_feed := sys_feed s; sys_fill := FillStopped |}
          end
      | _ => s
      end
  | LFillReturn r =>
      match sys_fill s with
      | FillAwaiting _ =>
          match r with
          | Ok response =>
              match fetch_candles_array response with
              | Ok candles =>
                  {| sys_feed := fill_candles_apply (sys_feed s) candles;
                     sys_fill := FillIdle |}
              | Raise _ => {| sys_feed := sys_feed s; sys_fill := FillIdle |}
              end
          | Raise e =>
              {| sys_feed := sys_feed s;
                 sys_fill := if is_cancelled e then FillStopped else FillIdle |}
          end
      | _ => s
      end
  end.

Definition run (s : system) (ls : list label) : system := fold_left exec ls s.

(** A condition on the environment, checked at every step of a run. *)
Fixpoint respects (P : system -> label -> bool) (s : system) (ls : list label) : bool :=
  match ls with
  | [] => true
  | l :: ls' => P s l && respects P (exec s l) ls'
  end.

(** Order of two candles by open time; an array without a first entry has
    no open time and is below or above nothing. *)
Definition row_ltb (r1 r2 : row num) : bool :=
  match r1, r2 with
  | x :: _, y :: _ => int_of x <? int_of y
  | _, _ => false
  end.

(** Strictly increasing open times, oldest first. *)
Fixpoint increasingb (d : list (row num)) : bool :=
  match d with
  | r1 :: ((r2 :: _) as d') => row_ltb r1 r2 && increasingb d'
  | _ => true
  end.

(** The buffer invariant of the data model. *)
Definition buffer_invariant (f : feed num) : Prop :=
  (length (_candles f) <= maxlen f)%nat /\
  ((1 < length (_candles f))%nat -> increasingb (_candles f) = true).

(** The live stream never delivers a kline older than the current tail. *)
Definition live_not_older (s : system) (l : label) : bool :=
  match l with
  | LMessage (DataDict e (Some k)) =>
      if is_kline_event e then
        match last (_candles (sys_feed s)) [] with
        | x :: _ => int_of x <=? k_t k
        | [] => true
        end
      else true
  | _ => true
  end.

(** Every fetched row that the fill loop keeps opens strictly before the
    [end_timestamp] it asked for. *)
Definition kept_below_boundary (s : system) (l : label) : bool :=
  match l, sys_fill s with
  | LFillReturn (Ok response), FillAwaiting b =>
      match fetch_candles_array response with
      | Ok candles =>
          forallb (fun r => match r with
                            | x :: _ => int_of x <? int_of b
                            | [] => false
                            end)
                  (kept_rows (sys_feed s) candles)
      | Raise _ => true
      end
  | _, _ => true
  end.

(** The kept rows come oldest first, with distinct open times. *)
Definition kept_increasing (s : system) (l : label) : bool :=
  match l, sys_fill s with
  | LFillReturn (Ok response), FillAwaiting _ =>
      match fetch_candles_array response with
      | Ok candles => increasingb (kept_rows (sys_feed s) candles)
      | Raise _ => true
      end
  | _, _ => true
  end.

(** Every row of a REST response has the open time and the trailing
    column at least. *)
Definition response_has_open_times (s : system) (l : label) : bool :=
  match l with
  | LFillReturn (Ok response) => forallb (fun r => (2 <=? length r)%nat) response
  | _ => true
  end.

Definition boundary_assumptions (s : system) (l : label) : bool :=
  live_not_older s l && kept_below_boundary s l.

Definition ordering_assumptions (s : system) (l : label) : bool :=
  live_not_older s l && kept_below_boundary s l && kept_increasing s l.

(** What the proofs carry along a run: the bound, the order, and, while a
    fetch is in flight, a head that opens no earlier than the
    [end_timestamp] that was read. *)
Definition head_not_before (b : num) (d : list (row num)) : Prop :=
  match d with
  | (x :: _) :: _ => int_of b <= int_of x
  | _ => False
  end.

Definition ordered_system (s : system) : Prop :=
  (length (_candles (sys_feed s)) <= maxlen (sys_feed s))%nat /\
  increasingb (_candles (sys_feed s)) = true /\
  match sys_fill s with
  | FillAwaiting b => head_not_before b (_candles (sys_feed s))
  | _ => True
  end.

(** Along a run with well-formed responses: every record has an open
    time, and once the event is set the buffer is empty only if it has no
    capacity. *)
Definition populated_system (s : system) : Prop :=
  (length (_candles (sys_feed s)) <= maxlen (sys_feed s))%nat /\
  Forall (fun r => r <> []) (_candles (sys_feed s)) /\
  (_ws_ready_event (sys_feed s) = true ->
   maxlen (sys_feed s) = 0%nat \/ _candles (sys_feed s) <> []).

End Interleaving.

Arguments system num : clear implicits.
Arguments label num : clear implicits.
Arguments fill_pc num : clear implicits.

(** ** Control flow of the loops: awaits, exceptions, handlers

    Every [await] on a collaborator is an input: the [script] of a pass
    says how each awaited call ends.  A coroutine body is a function from
    the shared state to an outcome, the new state and the calls and log
    records it made, in order. *)

Inductive ending : Type :=
| Returned
| Threw (e : exn)
| Pending.            (* suspended and never resumed *)

Inductive level : Type := LogInfo | LogWarning | LogError | LogException.

Inductive outcome (A : Type) : Type :=
| Returns (a : A)
| Raises (e : exn)
| Suspended.
Arguments Returns {A} a.
Arguments Raises {A} e.
Arguments Suspended {A}.

Section Loops.
Context {num : Type} `{Numeric num}.

(** The awaited calls. *)
Inductive call : Type :=
| CConnect                              (* self._connected_websocket_assistant() *)
| CSend (ws : nat)                      (* ws.send(subscribe_candles_request) *)
| CWaitReady                            (* self._ws_ready_event.wait() *)
| CIterMessages (ws : nat)              (* websocket_assistant.iter_messages() *)
| CSleep (delay : Z)                    (* self._sleep(delay) *)
| CDisconnect (ws : nat)                (* websocket_assistant.disconnect() *)
| CFetch (end_time : num) (limit : Z).  (* self.fetch_candles(end_time=..., limit=...) *)

Inductive event : Type :=
| EvCall (c : call) (e : ending)
| EvLog (l : level).

(** How the awaited calls of one pass end. *)
Record script : Type := mkScript {
  connect_out : result nat;                 (* the assistant, or the exception *)
  send_out : result unit;
  wait_cancelled : bool;                    (* cancelled while waiting on the event *)
  stream : list (ws_data num);              (* messages delivered by iter_messages *)
  stream_end : option exn;                  (* then it is exhausted, or raises *)
  sleep_out : result unit;
  disconnect_out : result unit;
  rest_out : result (list (list num))       (* the decoded REST response *)
}.

(** The shared feed and the local variable [ws] of
    [listen_for_subscriptions]. *)
Record world : Type := mkWorld {
  w_feed : feed num;
  w_ws : option nat
}.

Definition M (A : Type) : Type := world -> outcome A * world * list event.

Definition ret {A} (a : A) : M A := fun w => (Returns a, w, []).

Definition raise {A} (e : exn) : M A := fun w => (Raises e, w, []).

Definition bind {A B} (m : M A) (k : A -> M B) : M B :=
  fun w =>
    match m w with
    | (Returns a, w1, ev1) =>
        match k a w1 with
        | (o, w2, ev2) => (o, w2, ev1 ++ ev2)
        end
    | (Raises e, w1, ev1) => (Raises e, w1, ev1)
    | (Suspended, w1, ev1) => (Suspended, w1, ev1)
    end.

Notation "x <- m ;; k" := (bind m (fun x => k))
  (at level 61, m at next level, right associativity).
Notation "m ;; k" := (bind m (fun _ => k))
  (at level 61, right associativity).

(** [try: body / except ... as e: handler e]. *)
Definition try_except {A} (body : M A) (handler : exn -> M A) : M A :=
  fun w =>
    match body w with
    | (Raises e, w1, ev1) =>
        match handler e w1 with
        | (o, w2, ev2) => (o, w2, ev1 ++ ev2)
        end
    | r => r
    end.

(** [try: body / finally: fin].  An exception of [fin] replaces the
    pending one; a coroutine that never resumes never reaches [fin]. *)
Definition try_finally {A} (body : M A) (fin : M unit) : M A :=
  fun w =>
    match body w with
    | (Suspended, w1, ev1) => (Suspended, w1, ev1)
    | (o, w1, ev1) =>
        match fin w1 with
        | (Returns _, w2, ev2) => (o, w2, ev1 ++ ev2)
        | (Raises e, w2, ev2) => (Raises e, w2, ev1 ++ ev2)
        | (Suspended, w2, ev2) => (Suspended, w2, ev1 ++ ev2)
        end
    end.

Definition ending_of {A} (r : result A) : ending :=
  match r with Ok _ => Returned | Raise e => Threw e end.

(** Await a collaborator whose answer the script gives. *)
Definition await {A} (c : call) (r : result A) : M A :=
  fun w =>
    (match r with Ok a => Returns a | Raise e => Raises e end,
     w, [EvCall c (ending_of r)]).

Definition log (l : level) : M unit := fun w => (Returns tt, w, [EvLog l]).

Definition lift {A} (r : result A) : M A :=
  match r with Ok a => ret a | Raise e => raise e end.

Definition get_feed : M (feed num) := fun w => (Returns (w_feed w), w, []).

Definition put_feed (f : feed num) : M unit :=
  fun w => (Returns tt, {| w_feed := f; w_ws := w_ws w |}, []).

Definition get_ws : M (option nat) := fun w => (Returns (w_ws w), w, []).

Definition set_ws (ws : option nat) : M unit :=
  fun w => (Returns tt, {| w_feed := w_feed w; w_ws := ws |}, []).

Definition _sleep (sc : script) (delay : Z) : M unit :=
  await (CSleep delay) (sleep_out sc).

(** [await self._ws_ready_event.wait()]: returns at once when the event is
    set; otherwise the coroutine stays suspended (nothing but its own
    message handling sets the event) unless it is cancelled. *)
Definition wait_ready (sc : script) : M unit :=
  fun w =>
    if _ws_ready_event (w_feed w) then (Returns tt, w, [EvCall CWaitReady Returned])
    else if wait_cancelled sc
         then (Raises CancelledError, w, [EvCall CWaitReady (Threw CancelledError)])
         else (Suspended, w, [EvCall CWaitReady Pending]).

(** *** listen_for_subscriptions *)

Definition _connected_websocket_assistant (sc : script) : M nat :=
  await CConnect (connect_out sc).

Definition _subscribe_channels (sc : script) (ws : nat) : M unit :=
  try_except
    (await (CSend ws) (send_out sc) ;;
     log LogInfo)
    (fun e =>
       if is_cancelled e then raise e
       else
         log LogError ;;
         wait_ready sc ;;
         raise e).

Fixpoint handle_messages (ms : list (ws_data num)) : M unit :=
  match ms with
  | [] => ret tt
  | data :: ms' =>
      f <- get_feed ;;
      f' <- lift (process_message f data) ;;
      put_feed f' ;;
      handle_messages ms'
  end.

Definition _process_websocket_messages (sc : script) (ws : nat) : M unit :=
  handle_messages (stream sc) ;;
  await (CIterMessages ws)
        (match stream_end sc with None => Ok tt | Some e => Raise e end).

(** [websocket_assistant and await websocket_assistant.disconnect()]. *)
Definition _on_order_stream_interruption (sc : script) (ws : option nat) : M unit :=
  match ws with
  | Some h => await (CDisconnect h) (disconnect_out sc)
  | None => ret tt
  end.

(** One pass of the [while True] of [listen_for_subscriptions]. *)
Definition listen_iteration (sc : script) : M unit :=
  try_finally
    (try_except
       (ws <- _connected_websocket_assistant sc ;;
        set_ws (Some ws) ;;
        _subscribe_channels sc ws ;;
        _process_websocket_messages sc ws)
       (fun e =>
          if is_cancelled e then raise e
          else if is_connection_error e then log LogWarning
          else
            log LogException ;;
            _sleep sc 1))
    (ws <- get_ws ;;
     _on_order_stream_interruption sc ws).

(** *** fill_candles_loop *)

Definition fetch_candles (sc : script) (end_time : num) (limit : Z) : M (list (row num)) :=
  response <- await (CFetch end_time limit) (rest_out sc) ;;
  lift (fetch_candles_array response).

(** One pass of the [while True] of [fill_candles_loop]. *)
Definition fill_candles_iteration (sc : script) : M unit :=
  (f <- get_feed ;;
   d <- lift (fill_candles_begin f) ;;
   match d with
   | FillSkip => ret tt
   | FillRequest end_timestamp limit =>
       try_except
         (candles <- fetch_candles sc end_timestamp limit ;;
          f' <- get_feed ;;
          put_feed (fill_candles_apply f' candles))
         (fun e =>
            if is_cancelled e then raise e
            else log LogException)
   end) ;;
  _sleep sc 1.

(** *** The loops: one script per pass; [Returns] means that the loop is
    still running when the scripts are used up. *)

Fixpoint while_true (body : script -> M unit) (scs : list script) : M unit :=
  match scs with
  | [] => ret tt
  | sc :: scs' => body sc ;; while_true body scs'
  end.

Definition listen_for_subscriptions (scs : list script) : M unit :=
  set_ws None ;;
  while_true listen_iteration scs.

Definition fill_candles_loop (scs : list script) : M unit :=
  while_true fill_candles_iteration scs.

(** *** Reading a trace *)

Definition outcome_of {A} (r : outcome A * world * list event) : outcome A :=
  fst (fst r).

Definition world_of {A} (r : outcome A * world * list event) : world :=
  snd (fst r).

Definition trace_of {A} (r : outcome A * world * list event) : list event :=
  snd r.

(** The requests for historical rows in a trace. *)
Fixpoint fetch_requests (evs : list event) : list (num * Z) :=
  match evs with
  | [] => []
  | EvCall (CFetch end_time limit) _ :: evs' => (end_time, limit) :: fetch_requests evs'
  | _ :: evs' => fetch_requests evs'
  end.

(** The delays slept in a trace. *)
Fixpoint delays (evs : list event) : list Z :=
  match evs with
  | [] => []
  | EvCall (CSleep d) _ :: evs' => d :: delays evs'
  | _ :: evs' => delays evs'
  end.

(** The trace after the first awaited call that ended in a cancellation. *)
Fixpoint after_cancel (evs : list event) : option (list event) :=
  match evs with
  | [] => None
  | EvCall _ (Threw CancelledError) :: evs' => Some evs'
  | _ :: evs' => after_cancel evs'
  end.

End Loops.

Arguments call num : clear implicits.
Arguments event num : clear implicits.
Arguments script num : clear implicits.
Arguments world num : clear implicits.

(** ** Task bookkeeping: start_network and stop_network *)

Inductive coroutine : Type := FillCandlesLoop | ListenForSubscriptions.

Record task : Type := mkTask {
  task_coro : coroutine;
  task_cancelled : bool
}.

(** The three task attributes and the tasks handed to the event loop, a
    task being named by its position.  [_fill_candles_task] does not
    exist before [start_network] assigns it. *)
Record network : Type := mkNetwork {
  _fetch_candles_task : option nat;
  _listen_candles_task : option nat;
  _fill_candles_task : option nat;
  tasks : list task
}.

Definition init_network : network :=
  {| _fetch_candles_task := None; _listen_candles_task := None;
     _fill_candles_task := None; tasks := [] |}.

(** [safe_ensure_future(coro)]: schedule a new task, return its handle. *)
Definition safe_ensure_future (ts : list task) (c : coroutine) : nat * list task :=
  (length ts, ts ++ [{| task_coro := c; task_cancelled := false |}]).

(** [task.cancel()]. *)
Fixpoint cancel (ts : list task) (i : nat) : list task :=
  match ts, i with
  | [], _ => []
  | t :: ts', O => {| task_coro := task_coro t; task_cancelled := true |} :: ts'
  | t :: ts', S i' => t :: cancel ts' i'
  end.

Definition stop_network (n : network) : network :=
  let n1 :=
    match _fetch_candles_task n with
    | Some t =>
        {| _fetch_candles_task := None;
           _listen_candles_task := _listen_candles_task n;
           _fill_candles_task := _fill_candles_task n;
           tasks := cancel (tasks n) t |}
    | None => n
    end in
  match _listen_candles_task n1 with
  | Some t =>
      {| _fetch_candles_task := _fetch_candles_task n1;
         _listen_candles_task := None;
         _fill_candles_task := _fill_candles_task n1;
         tasks := cancel (tasks n1) t |}
  | None => n1
  end.

Definition start_network (n : network) : network :=
  let n1 := stop_network n in
  let '(fill, ts1) := safe_ensure_future (tasks n1) FillCandlesLoop in
  let '(listen, ts2) := safe_ensure_future ts1 ListenForSubscriptions in
  {| _fetch_candles_task := _fetch_candles_task n1;
     _listen_candles_task := Some listen;
     _fill_candles_task := Some fill;
     tasks := ts2 |}.

Inductive network_call : Type := Start | Stop.

Definition network_step (n : network) (c : network_call) : network :=
  match c with Start => start_network n | Stop => stop_network n end.

Definition is_coro (c : coroutine) (t : task) : bool :=
  match c, task_coro t with
  | FillCandlesLoop, FillCandlesLoop => true
  | ListenForSubscriptions, ListenForSubscriptions => true
  | _, _ => false
  end.

(** The tasks of a coroutine that were started and never cancelled. *)
Definition task_running (c : coroutine) (t : task) : bool :=
  is_coro c t && negb (task_cancelled t).

Definition running (c : coroutine) (n : network) : nat :=
  length (filter (task_running c) (tasks n)).

Definition is_start (c : network_call) : bool :=
  match c with Start => true | Stop => false end.

(** ** Concrete runs

    Integers as array entries; a candle that opens at [t] and a REST row
    for it (twelve columns, the last one unused). *)

Definition kline_at (t close : Z) : kline Z :=
  {| k_t := t; k_o := 10; k_l := 9; k_h := 12; k_c := close; k_v := 5;
     k_T := t + 99; k_q := 50; k_n := 7; k_V := 2; k_Q := 20 |}.

Definition kline_message (t close : Z) : ws_data Z :=
  DataDict (Some "kline"%string) (Some (kline_at t close)).

Definition candle_at (t : Z) : row Z := kline_array (kline_at t 11).

Definition rest_row (t : Z) : list Z := [t; 10; 9; 12; 11; 5; t + 99; 50; 7; 2; 20; 0].

(** A script in which every awaited call returns, with nothing on the
    stream and the given REST response. *)
Definition quiet_script (response : list (list Z)) : script Z :=
  {| connect_out := Ok 0%nat; send_out := Ok tt; wait_cancelled := false;
     stream := []; stream_end := None; sleep_out := Ok tt;
     disconnect_out := Ok tt; rest_out := Ok response |}.

(** Capacity 3, the candle of 300 in the buffer, the event set. *)
Definition feed_300 : feed Z :=
  {| _candles := [candle_at 300]; maxlen := 3; _ws_ready_event := true |}.

(** A run in which the REST response is not in chronological order. *)
Definition unordered_run : list (label Z) :=
  [LMessage (kline_message 300 11);
   LFillTick;
   LFillReturn (Ok [rest_row 200; rest_row 100; rest_row 300])].

(** The stream is cancelled and closing the connection then fails. *)
Definition cancel_then_close_fails : script Z :=
  {| connect_out := Ok 0%nat; send_out := Ok tt; wait_cancelled := false;
     stream := []; stream_end := Some CancelledError; sleep_out := Ok tt;
     disconnect_out := Raise ConnectionError; rest_out := Ok [] |}.

(** A run in which the REST response has rows of a single column: the
    row that the fill loop keeps is an array without entries. *)
Definition narrow_run : list (label Z) :=
  [LMessage (kline_message 300 11);
   LFillTick;
   LFillReturn (Ok [[100]; [200]])].

(** The stream breaks with a connection error and closing the connection
    then fails as well. *)
Definition drop_then_close_fails : script Z :=
  {| connect_out := Ok 0%nat; send_out := Ok tt; wait_cancelled := false;
     stream := []; stream_end := Some ConnectionError; sleep_out := Ok tt;
     disconnect_out := Raise ConnectionError; rest_out := Ok [] |}.

(** A run with a chronological response, then a newer live candle. *)
Definition ordered_run : list (label Z) :=
  [LMessage (kline_message 300 11);
   LFillTick;
   LFillReturn (Ok [rest_row 100; rest_row 200; rest_row 300]);
   LMessage (kline_message 400 11)].

(** Scenario C: five rows of twelve columns. *)
Definition five_rows : list (list Z) :=
  [rest_row 100; rest_row 200; rest_row 300; rest_row 400; rest_row 500].

(** The fill loop of [feed_300] inside its fetch. *)
Definition awaiting_300 : system Z :=
  {| sys_feed := feed_300; sys_fill := FillAwaiting 300 |}.

(** Capacity 2 and two live candles: a full buffer. *)
Definition full_system : system Z :=
  run (init_system 2) [LMessage (kline_message 100 11); LMessage (kline_message 200 11)].

(** The stream breaks with a connection error; everything else returns. *)
Definition dropped_stream : script Z :=
  {| connect_out := Ok 0%nat; send_out := Ok tt; wait_cancelled := false;
     stream := [kline_message 300 11]; stream_end := Some ConnectionError;
     sleep_out := Ok tt; disconnect_out := Ok tt; rest_out := Ok [] |}.

(** The stream is cancelled; closing the connection returns. *)
Definition cancelled_stream : script Z :=
  {| connect_out := Ok 0%nat; send_out := Ok tt; wait_cancelled := false;
     stream := []; stream_end := Some CancelledError; sleep_out := Ok tt;
     disconnect_out := Ok tt; rest_out := Ok [] |}.

Definition fresh_world : world Z :=
  {| w_feed := init_feed 3; w_ws := None |}.

(** ** Construction, and the names sent to the exchange *)

(** [trading_pair.replace("-", "")]: every hyphen is taken out. *)
Fixpoint remove_hyphens (s : string) : string :=
  match s with
  | EmptyString => EmptyString
  | String c s' =>
      if Ascii.eqb c "-"%char then remove_hyphens s' else String c (remove_hyphens s')
  end.

Definition is_upper (c : Ascii.ascii) : bool :=
  ((65 <=? Ascii.nat_of_ascii c) && (Ascii.nat_of_ascii c <=? 90))%nat.

(** [str.lower()] on the ASCII names that trading pairs are made of. *)
Definition lower_char (c : Ascii.ascii) : Ascii.ascii :=
  if is_upper c then Ascii.ascii_of_nat (Ascii.nat_of_ascii c + 32) else c.

Fixpoint lower (s : string) : string :=
  match s with
  | EmptyString => EmptyString
  | String c s' => String (lower_char c) (lower s')
  end.

(** Does the character occur in the string? *)
Fixpoint occurs (c : Ascii.ascii) (s : string) : bool :=
  match s with
  | EmptyString => false
  | String c' s' => Ascii.eqb c c' || occurs c s'
  end.

(** The class attribute [columns]. *)
Definition columns : list string :=
  ["timestamp"; "open"; "low"; "high"; "close"; "volume"; "close_time";
   "quote_asset_volume"; "n_trades"; "taker_buy_base_volume";
   "taker_buy_quote_volume"]%string.

(** The names that [__init__] stores. *)
Record config : Type := mkConfig {
  _trading_pair : string;
  _ex_trading_pair : string;
  _interval : string
}.

(** How a call of the constructor ends. *)
Inductive construction (A : Type) : Type :=
| Constructed (a : A)
| TypeError        (* a required positional argument is missing *)
| ValueError.      (* deque: maxlen must be non-negative *)
Arguments Constructed {A} a.
Arguments TypeError {A}.
Arguments ValueError {A}.

Section Construction.
Context {num : Type} `{Numeric num}.

(** An instance: the names and the shared state of the loops. *)
Record instance : Type := mkInstance {
  inst_config : config;
  inst_feed : feed num
}.

(** [BinanceCandlesFeed(trading_pair, interval="1m", update_interval=60.0,
    max_records=150)].  An argument that the caller leaves out is [None];
    [trading_pair] has no default.  The two float intervals are stored and
    not used by the loops; they are left out. *)
Definition __init__ (trading_pair interval : option string) (max_records : option Z)
  : construction instance :=
  match trading_pair with
  | None => TypeError
  | Some tp =>
      let n := match max_records with Some n => n | None => 150 end in
      if n <? 0 then ValueError
      else
        Constructed
          {| inst_config :=
               {| _trading_pair := tp;
                  _ex_trading_pair := remove_hyphens tp;
                  _interval := match interval with Some i => i | None => "1m"%string end |};
             inst_feed := init_feed (Z.to_nat n) |}
  end.

(** [get_instance]: the class attribute [_binance_candles_shared_instance]
    is threaded through; the constructor is called with no argument. *)
Definition get_instance (shared : option instance)
  : construction instance * option instance :=
  match shared with
  | Some i => (Constructed i, shared)
  | None =>
      match __init__ None None None with
      | Constructed i => (Constructed i, Some i)
      | TypeError => (TypeError, None)
      | ValueError => (ValueError, None)
      end
  end.

(** Calls of [get_instance] one after the other; the results in order. *)
Fixpoint get_instance_calls (n : nat) (shared : option instance)
  : list (construction instance) * option instance :=
  match n with
  | O => ([], shared)
  | S n' =>
      let '(r, shared1) := get_instance shared in
      let '(rs, shared2) := get_instance_calls n' shared1 in
      (r :: rs, shared2)
  end.

End Construction.

Arguments instance num : clear implicits.

(** The payload of the subscribe request in [_subscribe_channels]. *)
Record subscribe_payload : Type := mkPayload {
  sp_method : string;
  sp_params : list string;
  sp_id : Z
}.

Definition channel (c : config) : string :=
  (lower (_ex_trading_pair c) ++ "@kline_" ++ _interval c)%string.

Definition subscribe_request (c : config) : subscribe_payload :=
  {| sp_method := "SUBSCRIBE"%string;
     sp_params := [] ++ [channel c];
     sp_id := 1 |}.

(** The query of [fetch_candles], for the integer arguments of its
    signature.  A dict keeps its keys in insertion order. *)
Inductive param_value : Type :=
| PStr (s : string)
| PInt (z : Z)
| PNone.

(** [if start_time:] on an [Optional[int]]. *)
Definition truthy (t : option Z) : bool :=
  match t with
  | Some z => negb (z =? 0)
  | None => false
  end.

Definition fetch_params (c : config) (start_time end_time limit : option Z)
  : list (string * param_value) :=
  [("symbol"%string, PStr (_ex_trading_pair c));
   ("interval"%string, PStr (_interval c));
   ("limit"%string, match limit with Some n => PInt n | None => PNone end)]
  ++ (if truthy start_time
      then [("startTime"%string, match start_time with Some z => PInt z | None => PNone end)]
      else [])
  ++ (if truthy end_time
      then [("endTime"%string, match end_time with Some z => PInt z | None => PNone end)]
      else []).

(** [params.get(key)]. *)
Fixpoint param (key : string) (ps : list (string * param_value)) : option param_value :=
  match ps with
  | [] => None
  | (k, v) :: ps' => if String.eqb key k then Some v else param key ps'
  end.

(** ** More on runs *)

Section MoreRuns.
Context {num : Type} `{Numeric num}.

(** Every row of a REST response has one column more than [columns] has
    names. *)
Definition response_has_all_columns (s : system num) (l : label num) : bool :=
  match l with
  | LFillReturn (Ok response) =>
      forallb (fun r => (length r =? S (length columns))%nat) response
  | _ => true
  end.

(** The feed after the messages of a list have been handled in turn, a
    message that raises being skipped. *)
Definition messages (ms : list (ws_data num)) : list (label num) :=
  map LMessage ms.

(** Is the label the handling of a kline event? *)
Definition is_kline_label (l : label num) : bool :=
  match l with
  | LMessage (DataDict e _) => is_kline_event e
  | _ => false
  end.

End MoreRuns.

(** Connect and close calls in a trace. *)
Definition is_connect {num : Type} (ev : event num) : bool :=
  match ev with EvCall CConnect _ => true | _ => false end.

Definition is_close {num : Type} (ev : event num) : bool :=
  match ev with EvCall (CDisconnect _) _ => true | _ => false end.

Definition is_exception_log {num : Type} (ev : event num) : bool :=
  match ev with EvLog LogException => true | _ => false end.

(** The subscribe request fails on a feed whose event is not set. *)
Definition subscribe_fails : script Z :=
  {| connect_out := Ok 0%nat; send_out := Raise OtherError; wait_cancelled := false;
     stream := []; stream_end := None; sleep_out := Ok tt;
     disconnect_out := Ok tt; rest_out := Ok [] |}.

(** The connect call fails with a connection error. *)
Definition connect_fails : script Z :=
  {| connect_out := Raise ConnectionError; send_out := Ok tt; wait_cancelled := false;
     stream := []; stream_end := None; sleep_out := Ok tt;
     disconnect_out := Ok tt; rest_out := Ok [] |}.

(** The REST call fails. *)
Definition rest_fails : script Z :=
  {| connect_out := Ok 0%nat; send_out := Ok tt; wait_cancelled := false;
     stream := []; stream_end := None; sleep_out := Ok tt;
     disconnect_out := Ok tt; rest_out := Raise OtherError |}.

(** Two candles in a buffer of capacity 3. *)
Definition feed_200_300 : feed Z :=
  {| _candles := [candle_at 200; candle_at 300]; maxlen := 3; _ws_ready_event := true |}.

(** The feed for BTC-USDT with the defaults of the constructor. *)
Definition btc_usdt_feed : instance Z :=
  {| inst_config :=
       {| _trading_pair := "BTC-USDT"%string;
          _ex_trading_pair := "BTCUSDT"%string;
          _interval := "1m"%string |};
     inst_feed := init_feed 150 |}.

(** A run without a kline event. *)
Definition quiet_run : list (label Z) :=
  [LMessage DataNone; LFillTick; LMessage (DataDict (Some "trade"%string) None);
   LFillReturn (Ok [rest_row 100])].

(** The world of [feed_300] after a pass that connected assistant 0. *)
Definition world_300 : world Z :=
  {| w_feed := feed_300; w_ws := Some 0%nat |}.

(* ================================================================= *)
(** * Part II: lemmas and theorems *)
(* ================================================================= *)

(** ** The deque *)

Section DequeFacts.
Context {A : Type}.
Implicit Types (d xs : list A) (x : A) (n : nat).

Lemma length_tl d : length (tl d) = pred (length d).
Proof. destruct d; reflexivity. Qed.

Lemma length_deque_append n d x :
  length (deque_append n d x) =
  if (n <? S (length d))%nat then length d else S (length d).
Proof.
  unfold deque_append.
  rewrite length_app, Nat.add_1_r.
  destruct (n <? S (length d))%nat.
  - rewrite length_tl, length_app, Nat.add_1_r. reflexivity.
  - rewrite length_app, Nat.add_1_r. reflexivity.
Qed.

Lemma length_deque_appendleft n d x :
  length (deque_appendleft n d x) =
  if (n <? S (length d))%nat then length d else S (length d).
Proof.
  unfold deque_appendleft. cbn [length].
  destruct (n <? S (length d))%nat; [|reflexivity].
  rewrite removelast_firstn_len, length_firstn. cbn [length]. lia.
Qed.

Lemma deque_append_grows n d x : (length d <= length (deque_append n d x))%nat.
Proof.
  rewrite length_deque_append. destruct (n <? S (length d))%nat; lia.
Qed.

Lemma deque_append_bounded n d x :
  (length d <= n)%nat -> (length (deque_append n d x) <= n)%nat.
Proof.
  intros Hd. rewrite length_deque_append.
  destruct (Nat.ltb_spec n (S (length d))); lia.
Qed.

Lemma deque_append_full n d x :
  length d = n -> length (deque_append n d x) = n.
Proof.
  intros Hd. rewrite length_deque_append.
  destruct (Nat.ltb_spec n (S (length d))); lia.
Qed.

Lemma deque_extendleft_grows n xs : forall d,
  (length d <= length (deque_extendleft n d xs))%nat.
Proof.
  unfold deque_extendleft. destruct (n =? 0)%nat; [lia|].
  induction xs as [|x xs IH]; intros d; cbn [fold_left]; [lia|].
  etransitivity; [|apply IH].
  rewrite length_deque_appendleft. destruct (n <? S (length d))%nat; lia.
Qed.

Lemma deque_extendleft_bounded n xs : forall d,
  (length d <= n)%nat -> (length (deque_extendleft n d xs) <= n)%nat.
Proof.
  unfold deque_extendleft. destruct (n =? 0)%nat; [lia|].
  induction xs as [|x xs IH]; intros d Hd; cbn [fold_left]; [lia|].
  apply IH. rewrite length_deque_appendleft.
  destruct (Nat.ltb_spec n (S (length d))); lia.
Qed.

Lemma deque_extendleft_full n xs : forall d,
  length d = n -> length (deque_extendleft n d xs) = n.
Proof.
  intros d Hd. apply Nat.le_antisymm.
  - apply deque_extendleft_bounded. lia.
  - rewrite <- Hd at 1. apply deque_extendleft_grows.
Qed.

(** With room for all of them, the items end up in front of the old
    contents, the last item first, and nothing is dropped. *)
Lemma deque_extendleft_room n xs : forall d,
  (length xs + length d <= n)%nat ->
  deque_extendleft n d xs = rev xs ++ d.
Proof.
  unfold deque_extendleft.
  destruct (Nat.eqb_spec n 0) as [->|Hn].
  - intros d Hd. destruct xs; [reflexivity | cbn in Hd; lia].
  - induction xs as [|x xs IH]; intros d Hd; cbn [fold_left rev]; [reflexivity|].
    cbn [length] in Hd.
    unfold deque_appendleft at 2. cbn [length].
    destruct (Nat.ltb_spec n (S (length d))); [lia|].
    rewrite IH by (cbn [length]; lia).
    rewrite <- app_assoc. reflexivity.
Qed.

(** *** Slices *)

Lemma py_slice_drop_last (l : list A) : py_slice 0 (-1) l = removelast l.
Proof.
  unfold py_slice, slice_index. cbn [Z.ltb Z.compare].
  rewrite removelast_firstn_len.
  replace (Z.to_nat (Z.min 0 (Z.of_nat (length l)))) with 0%nat by lia.
  cbn [skipn]. f_equal. lia.
Qed.

(** [a[-(m+1):-1]] for [m >= 0]: the last [m+1] items without the last. *)
Lemma py_slice_tail (m : Z) (l : list A) :
  0 <= m ->
  py_slice (- (m + 1)) (-1) l =
  skipn (length l - 1 - Z.to_nat m) (removelast l).
Proof.
  intros Hm. unfold py_slice, slice_index.
  destruct (Z.ltb_spec (- (m + 1)) 0); [|lia].
  cbn [Z.ltb Z.compare].
  rewrite removelast_firstn_len.
  set (n := length l).
  replace (Z.to_nat (Z.max (- (m + 1) + Z.of_nat n) 0))
    with (n - 1 - Z.to_nat m)%nat by lia.
  replace (Z.to_nat (Z.max (-1 + Z.of_nat n) 0 - Z.max (- (m + 1) + Z.of_nat n) 0))
    with (pred n - (n - 1 - Z.to_nat m))%nat by lia.
  rewrite skipn_firstn_comm. reflexivity.
Qed.

Lemma length_py_slice_tail (m : Z) (l : list A) :
  0 <= m ->
  Z.of_nat (length (py_slice (- (m + 1)) (-1) l)) =
  Z.max 0 (Z.min m (Z.of_nat (length l) - 1)).
Proof.
  intros Hm. rewrite py_slice_tail by assumption.
  rewrite length_skipn, removelast_firstn_len, length_firstn. lia.
Qed.

End DequeFacts.

(** The deque and the slice on small inputs, as the interpreter gives
    them. *)

Example deque_append_drops_left : deque_append 3 [-1; 0; 1] 9 = [0; 1; 9].
Proof. reflexivity. Qed.

Example deque_append_without_capacity : deque_append 0 [] 1 = [].
Proof. reflexivity. Qed.

Example deque_extendleft_reverses : deque_extendleft 3 [300] [200; 100] = [100; 200; 300].
Proof. reflexivity. Qed.

Example deque_extendleft_drops_right : deque_extendleft 3 [1; 2; 3] [0; -1] = [-1; 0; 1].
Proof. reflexivity. Qed.

Example py_slice_last_rows :
  py_slice (-1) (-1) [100; 200; 300] = [] /\
  py_slice (-2) (-1) [100; 200; 300] = [200] /\
  py_slice (-3) (-1) [100; 200; 300] = [100; 200] /\
  py_slice (-5) (-1) [100; 200; 300] = [100; 200] /\
  py_slice (-3) (-1) [7] = [].
Proof. repeat split. Qed.

(** ** The handlers on the feed *)

Section FeedFacts.
Context {num : Type} `{Numeric num}.
Implicit Types (f : feed num) (s : system num) (l : label num).

Lemma process_message_shape f data f' :
  process_message f data = Ok f' ->
  maxlen f' = maxlen f /\
  (_candles f' = _candles f \/
   exists k, _candles f' = deque_append (maxlen f) (_candles f) (kline_array k)).
Proof.
  unfold process_message. intros Hp.
  destruct data as [|e k]; [injection Hp as <-; auto|].
  destruct (is_kline_event e); [|injection Hp as <-; auto].
  destruct k as [k|]; [|discriminate].
  destruct (length (_candles f) =? 0)%nat.
  { injection Hp as <-. cbn. eauto. }
  destruct (last (_candles f) []) as [|x rest]; [discriminate|].
  destruct (negb (k_t k =? int_of x)); injection Hp as <-; cbn; eauto.
Qed.

Lemma process_message_grows f data f' :
  process_message f data = Ok f' ->
  (length (_candles f) <= length (_candles f'))%nat.
Proof.
  intros Hp. destruct (process_message_shape _ _ _ Hp) as [_ [-> | [k ->]]].
  - lia.
  - apply deque_append_grows.
Qed.

Lemma process_message_ready f data f' :
  process_message f data = Ok f' ->
  is_ready f = true -> is_ready f' = true.
Proof.
  unfold is_ready. intros Hp Hr. apply Nat.eqb_eq in Hr. apply Nat.eqb_eq.
  destruct (process_message_shape _ _ _ Hp) as [-> [-> | [k ->]]]; [assumption|].
  apply deque_append_full. assumption.
Qed.

Lemma fill_candles_apply_grows f candles :
  (length (_candles f) <= length (_candles (fill_candles_apply f candles)))%nat.
Proof. cbn. apply deque_extendleft_grows. Qed.

Lemma fill_candles_apply_ready f candles :
  is_ready f = true -> is_ready (fill_candles_apply f candles) = true.
Proof.
  unfold is_ready. intros Hr. apply Nat.eqb_eq in Hr. apply Nat.eqb_eq.
  cbn. apply deque_extendleft_full. assumption.
Qed.

(** No step of the feed shrinks the buffer. *)
Lemma exec_grows s l :
  (length (_candles (sys_feed s)) <= length (_candles (sys_feed (exec s l))))%nat.
Proof.
  destruct l as [data | | r]; cbn.
  - destruct (process_message (sys_feed s) data) eqn:Hp; [|lia].
    cbn. eapply process_message_grows; eassumption.
  - destruct (sys_fill s); [|lia|lia].
    destruct (fill_candles_begin (sys_feed s)) as [[|e lim]|]; cbn; lia.
  - destruct (sys_fill s); [lia| |lia].
    destruct r as [response|e]; [|cbn; lia].
    destruct (fetch_candles_array response); [|cbn; lia].
    cbn [sys_feed]. apply fill_candles_apply_grows.
Qed.

Lemma exec_ready s l :
  is_ready (sys_feed s) = true -> is_ready (sys_feed (exec s l)) = true.
Proof.
  intros Hr. destruct l as [data | | r]; cbn.
  - destruct (process_message (sys_feed s) data) eqn:Hp; [|assumption].
    cbn. eapply process_message_ready; eassumption.
  - destruct (sys_fill s); [|assumption|assumption].
    destruct (fill_candles_begin (sys_feed s)) as [[|e lim]|]; cbn; assumption.
  - destruct (sys_fill s); [assumption| |assumption].
    destruct r as [response|e]; [|cbn; assumption].
    destruct (fetch_candles_array response); [|cbn; assumption].
    cbn [sys_feed]. apply fill_candles_apply_ready. assumption.
Qed.

Lemma run_ready ls : forall s,
  is_ready (sys_feed s) = true -> is_ready (sys_feed (run s ls)) = true.
Proof.
  unfold run. induction ls as [|l ls IH]; intros s Hr; cbn [fold_left].
  - assumption.
  - apply IH, exec_ready, Hr.
Qed.

(** C5. Readiness monotonicity: from a state in which [is_ready] holds,
    every later state of the running feed, whatever live messages, fill
    ticks and fetch results come in, still has [is_ready], and the next
    operation does not decrease the size of the buffer. *)
Theorem is_ready_never_reverts s ls l :
  is_ready (sys_feed s) = true ->
  is_ready (sys_feed (run s ls)) = true /\
  is_ready (sys_feed (exec (run s ls) l)) = true /\
  (length (_candles (sys_feed (run s ls))) <=
   length (_candles (sys_feed (exec (run s ls) l))))%nat.
Proof.
  intros Hr. split; [|split].
  - apply run_ready, Hr.
  - apply exec_ready, run_ready, Hr.
  - apply exec_grows.
Qed.

Lemma fetch_candles_array_length response candles :
  fetch_candles_array response = Ok candles ->
  length candles = length response /\ response <> [].
Proof.
  unfold fetch_candles_array. destruct response as [|r0 rest]; [discriminate|].
  destruct (forallb _ rest); [|discriminate].
  intros Hc. injection Hc as <-.
  split; [cbn [length map]; rewrite length_map; reflexivity | discriminate].
Qed.

Lemma missing_records_nonneg f :
  (length (_candles f) <= maxlen f)%nat -> 0 <= missing_records f.
Proof. unfold missing_records. lia. Qed.

Lemma fill_candles_apply_prepends f candles :
  (length (_candles f) <= maxlen f)%nat ->
  _candles (fill_candles_apply f candles) = kept_rows f candles ++ _candles f.
Proof.
  intros Hb. cbn.
  pose proof (missing_records_nonneg f Hb) as Hm.
  pose proof (length_py_slice_tail (missing_records f) candles Hm) as Hl.
  fold (kept_rows f candles) in Hl.
  rewrite deque_extendleft_room.
  - rewrite rev_involutive. reflexivity.
  - rewrite length_rev. unfold missing_records in *. lia.
Qed.

(** C10. Frame of the prepend.  When the fetch has returned, the fill loop
    reads the missing count again and mutates the deque in the same step;
    the number of rows it puts in front is the smaller of that count and
    the number of fetched rows less one, which is at most the free
    capacity, so the old contents stay in place behind the new rows and no
    record is evicted. *)
Theorem backfill_prepend_keeps_buffer s b response candles :
  (length (_candles (sys_feed s)) <= maxlen (sys_feed s))%nat ->
  sys_fill s = FillAwaiting b ->
  fetch_candles_array response = Ok candles ->
  let f := sys_feed s in
  let f' := sys_feed (exec s (LFillReturn (Ok response))) in
  let kept := kept_rows f candles in
  Z.of_nat (length kept) = Z.min (missing_records f) (Z.of_nat (length candles) - 1) /\
  (length kept <= maxlen f - length (_candles f))%nat /\
  _candles f' = kept ++ _candles f /\
  (forall r, In r (_candles f) -> In r (_candles f')).
Proof.
  intros Hb Hpc Hfetch f f' kept.
  assert (Hf' : f' = fill_candles_apply f candles).
  { subst f' f. cbn. rewrite Hpc, Hfetch. reflexivity. }
  pose proof (missing_records_nonneg f Hb) as Hm.
  pose proof (length_py_slice_tail (missing_records f) candles Hm) as Hl.
  fold (kept_rows f candles) in Hl. fold kept in Hl.
  destruct (fetch_candles_array_length _ _ Hfetch) as [Hlen Hne].
  assert (0 < length candles)%nat.
  { rewrite Hlen. destruct response; [congruence | cbn; lia]. }
  assert (Heq : _candles f' = kept ++ _candles f).
  { rewrite Hf'. apply fill_candles_apply_prepends, Hb. }
  split; [|split; [|split]].
  - lia.
  - unfold missing_records in *. lia.
  - exact Heq.
  - intros r Hr. rewrite Heq. apply in_or_app. right. exact Hr.
Qed.

(** C4. A kline whose open time equals that of the tail record changes
    nothing in the buffer: the handler returns the same deque (same size,
    same tail, all eleven values of it), whatever the other fields of the
    message are.  Hence, of two consecutive klines with one open time, the
    second leaves the buffer as the first left it. *)
Theorem same_open_time_is_ignored f e1 k1 e2 k2 x rest :
  is_kline_event e1 = true ->
  is_kline_event e2 = true ->
  _candles f <> [] ->
  last (_candles f) [] = x :: rest ->
  k_t k1 = int_of x ->
  (process_message f (DataDict e1 (Some k1)) = Ok (set_ready f) /\
   _candles (set_ready f) = _candles f) /\
  (k_t k2 = k_t k1 ->
   forall f0 f1, process_message f0 (DataDict e1 (Some k1)) = Ok f1 ->
   exists f2, process_message f1 (DataDict e2 (Some k2)) = Ok f2 /\
              _candles f2 = _candles f1).
Proof.
  intros He1 He2 Hne Hlast Ht. split.
  - split; [|reflexivity].
    unfold process_message. rewrite He1.
    destruct (_candles f) as [|r d] eqn:Hd; [congruence|].
    cbn [length Nat.eqb]. rewrite Hlast, Ht, Z.eqb_refl. reflexivity.
  - intros Hk f0 f1 Hp.
    assert (Htail : _candles f1 = [] \/
                    exists y r, last (_candles f1) [] = y :: r /\ int_of y = k_t k1).
    { revert Hp. unfold process_message. rewrite He1.
      assert (Happ : forall d,
                 deque_append (maxlen f0) d (kline_array k1) = [] \/
                 exists y r, last (deque_append (maxlen f0) d (kline_array k1)) [] = y :: r
                             /\ int_of y = k_t k1).
      { intros d. unfold deque_append.
        destruct (maxlen f0 <? length (d ++ [kline_array k1]))%nat.
        - destruct d as [|r0 d]; [left; reflexivity|]. right.
          cbn [app tl]. rewrite last_last.
          do 2 eexists. split; [reflexivity | apply int_of_int].
        - right. rewrite last_last.
          do 2 eexists. split; [reflexivity | apply int_of_int]. }
      destruct (length (_candles f0) =? 0)%nat.
      { intros Hp. injection Hp as <-. cbn. apply Happ. }
      destruct (last (_candles f0) []) as [|y r] eqn:Hl0; [discriminate|].
      destruct (Z.eqb_spec (k_t k1) (int_of y)) as [Heq|Hneq]; cbn [negb].
      - intros Hp. injection Hp as <-. cbn. right. eauto.
      - intros Hp. injection Hp as <-. cbn. apply Happ. }
    unfold process_message. rewrite He2.
    destruct Htail as [Hemp | (y & r & Hl1 & Hy)].
    + rewrite Hemp. cbn [length Nat.eqb].
      eexists. split; [reflexivity|]. cbn.
      (* an empty deque after an append has capacity 0 and stays empty *)
      revert Hp Hemp. unfold process_message. rewrite He1.
      assert (Hcap : forall d, deque_append (maxlen f0) d (kline_array k1) = [] ->
                               maxlen f0 = 0%nat).
      { intros d. unfold deque_append.
        destruct (Nat.ltb_spec (maxlen f0) (length (d ++ [kline_array k1]))) as [Hlt|Hge].
        - rewrite length_app in Hlt. cbn in Hlt.
          destruct d as [|r0 d]; cbn [app tl]; [cbn in Hlt; lia|].
          destruct d; discriminate.
        - destruct d; discriminate. }
      assert (Hmax : maxlen f1 = maxlen f0 -> maxlen f0 = 0%nat ->
                     deque_append (maxlen f1) [] (kline_array k2) = []).
      { intros -> ->. reflexivity. }
      destruct (length (_candles f0) =? 0)%nat eqn:Hlen0.
      { intros Hp Hemp. injection Hp as <-. cbn in *. apply Hmax; eauto. }
      destruct (last (_candles f0) []) as [|y r] eqn:Hl0; [discriminate|].
      destruct (negb (k_t k1 =? int_of y)).
      * intros Hp Hemp. injection Hp as <-. cbn in *. apply Hmax; eauto.
      * intros Hp Hemp. injection Hp as <-. cbn in *.
        rewrite Hemp in Hlen0. discriminate.
    + destruct (_candles f1) as [|r1 d1] eqn:Hd1; [discriminate|].
      cbn [length Nat.eqb]. rewrite Hl1, Hk, Hy, Z.eqb_refl. cbn [negb].
      eexists. split; [reflexivity|]. cbn. exact Hd1.
Qed.

End FeedFacts.

(** ** Order of the buffer along a run *)

Section OrderFacts.
Context {num : Type} `{Numeric num}.
Implicit Types (d k : list (row num)) (r : row num).

Lemma increasingb_cons r d :
  increasingb (r :: d) = true ->
  increasingb d = true.
Proof.
  destruct d as [|r2 d]; [reflexivity|].
  cbn [increasingb]. intros Hi. apply andb_true_iff in Hi. apply Hi.
Qed.

Lemma increasingb_tl d : increasingb d = true -> increasingb (tl d) = true.
Proof.
  destruct d as [|r d]; [reflexivity|]. cbn [tl]. apply increasingb_cons.
Qed.

(** Appending a record that opens after the current tail. *)
Lemma increasingb_snoc d r :
  increasingb d = true ->
  match d with [] => True | _ :: _ => row_ltb (last d []) r = true end ->
  increasingb (d ++ [r]) = true.
Proof.
  induction d as [|r1 d IH]; [reflexivity|].
  intros Hi Hl. destruct d as [|r2 d].
  - cbn in *. rewrite Hl. reflexivity.
  - cbn [app increasingb] in *. apply andb_true_iff in Hi. destruct Hi as [H12 Hi].
    rewrite H12. cbn [andb]. apply IH; assumption.
Qed.

(** Putting an increasing batch in front of the current head. *)
Lemma increasingb_app k d :
  increasingb k = true ->
  increasingb d = true ->
  match k, d with
  | _ :: _, rd :: _ => row_ltb (last k []) rd = true
  | _, _ => True
  end ->
  increasingb (k ++ d) = true.
Proof.
  induction k as [|r1 k IH]; [intros; assumption|].
  intros Hk Hd Hl. destruct k as [|r2 k].
  - destruct d as [|rd d]; [reflexivity|].
    cbn [app increasingb last] in *. rewrite Hl. exact Hd.
  - cbn [app increasingb] in *. apply andb_true_iff in Hk. destruct Hk as [H12 Hk].
    rewrite H12. cbn [andb]. apply IH; assumption.
Qed.

Lemma in_py_slice {A} (a b : Z) (l : list A) (x : A) :
  In x (py_slice a b l) -> In x l.
Proof.
  unfold py_slice. intros Hin.
  set (n := Z.to_nat _) in Hin. set (lo := Z.to_nat _) in Hin.
  rewrite <- (firstn_skipn lo l). apply in_or_app. right.
  rewrite <- (firstn_skipn n (skipn lo l)). apply in_or_app. left. exact Hin.
Qed.

Lemma last_in {A} (l : list A) (dflt : A) : l <> [] -> In (last l dflt) l.
Proof.
  induction l as [|a l IH]; [congruence|].
  intros _. destruct l as [|b l]; [left; reflexivity|].
  right. apply IH. discriminate.
Qed.

End OrderFacts.

Section RunFacts.
Context {num : Type} `{Numeric num}.
Implicit Types (f : feed num) (s : system num) (l : label num)
               (d : list (row num)) (r : row num).

Lemma exec_maxlen s l : maxlen (sys_feed (exec s l)) = maxlen (sys_feed s).
Proof.
  destruct l as [data | | r]; cbn.
  - destruct (process_message (sys_feed s) data) eqn:Hp; [|reflexivity].
    apply process_message_shape in Hp. apply Hp.
  - destruct (sys_fill s); try reflexivity.
    destruct (fill_candles_begin (sys_feed s)) as [[|e lim]|]; reflexivity.
  - destruct (sys_fill s); try reflexivity.
    destruct r as [response|e]; [|reflexivity].
    destruct (fetch_candles_array response); reflexivity.
Qed.

Lemma run_maxlen ls : forall s, maxlen (sys_feed (run s ls)) = maxlen (sys_feed s).
Proof.
  unfold run. induction ls as [|l ls IH]; intros s; cbn [fold_left]; [reflexivity|].
  rewrite IH. apply exec_maxlen.
Qed.

Lemma increasingb_deque_append n d r :
  increasingb d = true ->
  match d with [] => True | _ :: _ => row_ltb (last d []) r = true end ->
  increasingb (deque_append n d r) = true.
Proof.
  intros Hi Hl. unfold deque_append.
  pose proof (increasingb_snoc d r Hi Hl) as Hs.
  destruct (n <? length (d ++ [r]))%nat; [apply increasingb_tl|]; exact Hs.
Qed.

Lemma head_not_before_deque_append b n d r :
  head_not_before b d ->
  increasingb d = true ->
  row_ltb (last d []) r = true ->
  head_not_before b (deque_append n d r).
Proof.
  intros Hh Hi Hl. unfold deque_append.
  destruct d as [|[|x rest] d0]; try contradiction.
  destruct (n <? _)%nat; [|exact Hh].
  cbn [app tl]. destruct d0 as [|r2 d1].
  - cbn [app]. cbn [last] in Hl. destruct r as [|y r']; [discriminate|].
    cbn in Hl |- *. cbn in Hh. apply Z.ltb_lt in Hl. lia.
  - cbn [app]. cbn [increasingb] in Hi. apply andb_true_iff in Hi.
    destruct Hi as [H12 _]. destruct r2 as [|y r2']; [discriminate|].
    cbn in H12 |- *. cbn in Hh. apply Z.ltb_lt in H12. lia.
Qed.

(** One step keeps the bound and the order, under the three assumptions
    on the environment. *)
Lemma exec_ordered s l :
  ordered_system s ->
  ordering_assumptions s l = true ->
  ordered_system (exec s l).
Proof.
  intros (Hb & Hi & Hpc) Ha.
  unfold ordering_assumptions in Ha.
  apply andb_true_iff in Ha. destruct Ha as [Ha Hinc].
  apply andb_true_iff in Ha. destruct Ha as [Hlive Hbelow].
  destruct l as [data | | r].
  - (* a live message *)
    cbn [exec]. destruct data as [|e k]; [split; [|split]; assumption|].
    cbn [process_message]. cbn [live_not_older] in Hlive.
    destruct (is_kline_event e); [|split; [|split]; assumption].
    destruct k as [k|]; [|split; [|split]; assumption].
    destruct (_candles (sys_feed s)) as [|r0 d0] eqn:Hd.
    + cbn [length Nat.eqb]. unfold ordered_system. cbn [sys_feed sys_fill _candles maxlen set_ready set_candles].
      split; [|split].
      * apply deque_append_bounded. cbn. lia.
      * apply increasingb_deque_append; [reflexivity|exact I].
      * destruct (sys_fill s); try exact I. contradiction.
    + cbn [length Nat.eqb].
      destruct (last (r0 :: d0) []) as [|x rest] eqn:Hlast;
        [split; [|split]; rewrite ?Hd; assumption|].
      destruct (Z.eqb_spec (k_t k) (int_of x)) as [Heq|Hneq]; cbn [negb].
      * unfold ordered_system. cbn [sys_feed sys_fill _candles maxlen set_ready].
        rewrite Hd. split; [|split]; assumption.
      * assert (Hlt : row_ltb (last (r0 :: d0) []) (kline_array k) = true).
        { rewrite Hlast. cbn. rewrite int_of_int. apply Z.ltb_lt.
          apply Z.leb_le in Hlive. lia. }
        unfold ordered_system.
        cbn [sys_feed sys_fill _candles maxlen set_ready set_candles].
        split; [|split].
        -- apply deque_append_bounded. exact Hb.
        -- apply increasingb_deque_append; assumption.
        -- destruct (sys_fill s); try exact I.
           apply head_not_before_deque_append; assumption.
  - (* the fill loop reaches its await *)
    cbn [exec]. destruct (sys_fill s) eqn:Hfill; try (split; [|split]; rewrite ?Hfill; assumption).
    unfold fill_candles_begin.
    destruct (_ws_ready_event (sys_feed s));
      [|split; [|split]; rewrite ?Hfill; assumption].
    destruct (0 <? missing_records (sys_feed s));
      [|split; [|split]; rewrite ?Hfill; assumption].
    destruct (_candles (sys_feed s)) as [|[|x rest] d0] eqn:Hd;
      unfold ordered_system; cbn [sys_feed sys_fill]; rewrite ?Hd;
      (split; [|split]); try assumption; try exact I.
    cbn. lia.
  - (* the fetch returns *)
    cbn [exec]. destruct (sys_fill s) as [|b|] eqn:Hfill;
      try (split; [|split]; rewrite ?Hfill; assumption).
    destruct r as [response|e].
    2:{ unfold ordered_system. cbn [sys_feed sys_fill].
        split; [|split]; try assumption. destruct (is_cancelled e); exact I. }
    cbn [kept_below_boundary kept_increasing] in Hbelow, Hinc.
    rewrite Hfill in Hbelow, Hinc.
    destruct (fetch_candles_array response) as [candles|e] eqn:Hfetch.
    2:{ unfold ordered_system. cbn [sys_feed sys_fill].
        split; [|split]; try assumption. exact I. }
    unfold ordered_system. cbn [sys_feed sys_fill].
    split; [|split]; [| |exact I].
    + cbn [fill_candles_apply set_candles _candles maxlen].
      apply deque_extendleft_bounded. exact Hb.
    + rewrite (fill_candles_apply_prepends _ _ Hb).
      apply increasingb_app; try assumption.
      destruct (kept_rows (sys_feed s) candles) as [|k0 ks] eqn:Hk; [exact I|].
      destruct (_candles (sys_feed s)) as [|[|x rest] d0]; try contradiction.
      assert (Hin : In (last (k0 :: ks) []) (k0 :: ks)) by (apply last_in; discriminate).
      rewrite forallb_forall in Hbelow. specialize (Hbelow _ Hin).
      destruct (last (k0 :: ks) []) as [|y yr]; [discriminate|].
      cbn in Hpc |- *. apply Z.ltb_lt in Hbelow. apply Z.ltb_lt. lia.
Qed.

Lemma run_ordered ls : forall s,
  ordered_system s ->
  respects ordering_assumptions s ls = true ->
  ordered_system (run s ls).
Proof.
  unfold run. induction ls as [|l ls IH]; intros s Ho Hr; cbn [fold_left].
  - exact Ho.
  - cbn [respects] in Hr. apply andb_true_iff in Hr. destruct Hr as [Hl Hr].
    apply IH; [|exact Hr].
    apply exec_ordered; assumption.
Qed.

(** C1 (amended). Along every run of the feed from its construction, with
    any interleaving of live messages, fill ticks and fetch results, if the
    live stream never delivers a kline older than the tail, every kept
    fetched row opens strictly before the [end_timestamp] read for the
    request, and the kept rows are themselves in strictly increasing
    order, then the buffer holds at most [max_records] records and, when it
    holds more than one, their open times increase strictly from head to
    tail. *)
Theorem buffer_invariant_along_runs (max_records : nat) (ls : list (label num)) :
  respects ordering_assumptions (init_system max_records) ls = true ->
  let f := sys_feed (run (init_system max_records) ls) in
  maxlen f = max_records /\ buffer_invariant f.
Proof.
  intros Hr f.
  assert (Hm : maxlen f = max_records).
  { subst f. rewrite run_maxlen. reflexivity. }
  destruct (run_ordered ls (init_system max_records)) as (Hb & Hi & _).
  - split; [|split]; cbn; [lia|reflexivity|exact I].
  - exact Hr.
  - fold f in Hb, Hi. split; [exact Hm|]. split; [exact Hb|]. intros _. exact Hi.
Qed.

End RunFacts.

(** ** What the fill loop asks for *)

Section RequestFacts.
Context {num : Type} `{Numeric num}.
Implicit Types (f : feed num) (s : system num) (l : label num)
               (d : list (row num)) (r : row num).

Lemma Forall_tl {A} (P : A -> Prop) (xs : list A) : Forall P xs -> Forall P (tl xs).
Proof. intros HF. destruct HF; [constructor|assumption]. Qed.

Lemma Forall_removelast {A} (P : A -> Prop) (xs : list A) :
  Forall P xs -> Forall P (removelast xs).
Proof.
  induction 1 as [|a xs Ha HF IH]; [constructor|].
  cbn [removelast]. destruct xs; [constructor|]. constructor; assumption.
Qed.

Lemma Forall_deque_append (P : row num -> Prop) n d r :
  Forall P d -> P r -> Forall P (deque_append n d r).
Proof.
  intros Hd Hr. unfold deque_append.
  assert (Forall P (d ++ [r])) by (apply Forall_app; split; [assumption|repeat constructor; assumption]).
  destruct (n <? _)%nat; [apply Forall_tl|]; assumption.
Qed.

Lemma Forall_deque_extendleft (P : row num -> Prop) n xs : forall d,
  Forall P d -> Forall P xs -> Forall P (deque_extendleft n d xs).
Proof.
  unfold deque_extendleft. destruct (n =? 0)%nat; [intros; assumption|].
  induction xs as [|x xs IH]; intros d Hd Hxs; cbn [fold_left]; [assumption|].
  inversion Hxs; subst. apply IH; [|assumption].
  unfold deque_appendleft.
  destruct (n <? _)%nat; [apply Forall_removelast|]; constructor; assumption.
Qed.

Lemma deque_append_nonempty n (d : list (row num)) r :
  (0 < n)%nat -> deque_append n d r <> [].
Proof.
  intros Hn Hnil. apply (f_equal (@length _)) in Hnil.
  rewrite length_deque_append in Hnil. cbn [length] in Hnil.
  destruct (Nat.ltb_spec n (S (length d))); lia.
Qed.

(** The rows that [fetch_candles] returns for a response whose rows have
    two columns or more all have a first entry. *)
Lemma fetch_candles_array_open_times response candles :
  forallb (fun r => (2 <=? length r)%nat) response = true ->
  fetch_candles_array response = Ok candles ->
  Forall (fun r => r <> []) candles.
Proof.
  unfold fetch_candles_array. intros Hw.
  destruct response as [|r0 rest]; [discriminate|].
  match goal with |- context [if ?c then _ else _] => destruct c end; [|discriminate].
  intros Hc. injection Hc as <-.
  apply Forall_forall. intros r Hin.
  change (In r (map (fun r => map astype_float (py_slice 0 (-1) r)) (r0 :: rest))) in Hin.
  apply in_map_iff in Hin.
  destruct Hin as (r' & <- & Hin).
  rewrite forallb_forall in Hw. specialize (Hw _ Hin). apply Nat.leb_le in Hw.
  rewrite py_slice_drop_last.
  destruct r' as [|a [|b r'']]; cbn in Hw; try lia. discriminate.
Qed.

Lemma exec_populated s l :
  populated_system s ->
  response_has_open_times s l = true ->
  populated_system (exec s l).
Proof.
  intros (Hb & Hne & Hr) Hw.
  destruct l as [data | | r].
  - cbn [exec]. destruct data as [|e k]; [split; [|split]; assumption|].
    cbn [process_message].
    destruct (is_kline_event e); [|split; [|split]; assumption].
    destruct k as [k|]; [|split; [|split]; assumption].
    assert (Happ : populated_system
              {| sys_feed := set_ready (set_candles (sys_feed s)
                    (deque_append (maxlen (sys_feed s)) (_candles (sys_feed s))
                                  (kline_array k)));
                 sys_fill := sys_fill s |}).
    { unfold populated_system.
      cbn [sys_feed _candles maxlen set_ready set_candles _ws_ready_event].
      split; [|split].
      - apply deque_append_bounded, Hb.
      - apply Forall_deque_append; [assumption|discriminate].
      - intros _. destruct (maxlen (sys_feed s)) as [|n] eqn:Hn; [left; reflexivity|].
        right. apply deque_append_nonempty. lia. }
    destruct (Nat.eqb_spec (length (_candles (sys_feed s))) 0) as [Hz|Hnz];
      [exact Happ|].
    destruct (last (_candles (sys_feed s)) []); [split; [|split]; assumption|].
    destruct (negb _); [exact Happ|].
    unfold populated_system. cbn [sys_feed _candles maxlen set_ready _ws_ready_event].
    split; [|split]; try assumption.
    intros _. right. intros Hnil. rewrite Hnil in Hnz. cbn in Hnz. congruence.
  - cbn [exec]. destruct (sys_fill s); try (split; [|split]; assumption).
    destruct (fill_candles_begin (sys_feed s)) as [[|x lim]|];
      split; [|split| |split| |split]; assumption.
  - cbn [exec]. destruct (sys_fill s); try (split; [|split]; assumption).
    destruct r as [response|e]; [|split; [|split]; assumption].
    cbn [response_has_open_times] in Hw.
    destruct (fetch_candles_array response) as [candles|e] eqn:Hfetch;
      [|split; [|split]; assumption].
    pose proof (fetch_candles_array_open_times _ _ Hw Hfetch) as Hrows.
    unfold populated_system.
    cbn [sys_feed fill_candles_apply _candles maxlen set_candles _ws_ready_event].
    split; [|split].
    + apply deque_extendleft_bounded, Hb.
    + apply Forall_deque_extendleft; [assumption|].
      apply Forall_rev. apply Forall_forall. intros r Hin.
      apply in_py_slice in Hin. rewrite Forall_forall in Hrows. apply Hrows, Hin.
    + intros Hready. destruct (Hr Hready) as [Hz|Hnn]; [left; exact Hz|].
      right. intros Hnil.
      pose proof (deque_extendleft_grows (maxlen (sys_feed s))
                    (rev (kept_rows (sys_feed s) candles)) (_candles (sys_feed s))) as Hg.
      rewrite Hnil in Hg. destruct (_candles (sys_feed s)); [congruence|cbn in Hg; lia].
Qed.

Lemma run_populated ls : forall s,
  populated_system s ->
  respects response_has_open_times s ls = true ->
  populated_system (run s ls).
Proof.
  unfold run. induction ls as [|l ls IH]; intros s Hp Hr; cbn [fold_left].
  - exact Hp.
  - cbn [respects] in Hr. apply andb_true_iff in Hr. destruct Hr as [Hl Hr].
    apply IH; [|exact Hr]. apply exec_populated; assumption.
Qed.

Lemma fetch_requests_app (evs1 evs2 : list (event num)) :
  fetch_requests (evs1 ++ evs2) = fetch_requests evs1 ++ fetch_requests evs2.
Proof.
  induction evs1 as [|[[| | | | | |x lim] e|lv] evs1 IH]; cbn; rewrite ?IH; reflexivity.
Qed.

(** C6 (amended). On a pass of the fill loop in any state that a run
    reaches whose REST rows have two columns or more: if the event is set
    and the missing count is positive, the buffer is not empty and the
    pass makes exactly one request, with [end_time] the first entry of the head record and
    [limit] the missing count plus one; if the event is not set or nothing
    is missing, the pass makes no request. *)
Theorem backfill_request_per_tick (max_records : nat) (ls : list (label num))
        (sc : script num) (ws : option nat) :
  respects response_has_open_times (init_system max_records) ls = true ->
  let f := sys_feed (run (init_system max_records) ls) in
  let evs := trace_of (fill_candles_iteration sc {| w_feed := f; w_ws := ws |}) in
  (_ws_ready_event f = true -> 0 < missing_records f ->
   exists x rest d,
     _candles f = (x :: rest) :: d /\
     fetch_requests evs = [(x, missing_records f + 1)]) /\
  (_ws_ready_event f = false \/ missing_records f <= 0 ->
   fetch_requests evs = []).
Proof.
  intros Hr f evs.
  destruct (run_populated ls (init_system max_records)) as (Hb & Hne & Hready).
  { split; [|split]; cbn; [lia|constructor|discriminate]. }
  { exact Hr. }
  fold f in Hb, Hne, Hready.
  split.
  - intros Hset Hmiss.
    destruct (Hready Hset) as [Hz|Hnn].
    { unfold missing_records in Hmiss. lia. }
    destruct (_candles f) as [|[|x rest] d] eqn:Hd; [congruence| |].
    { inversion Hne; congruence. }
    exists x, rest, d. split; [reflexivity|].
    subst evs. unfold fill_candles_iteration, trace_of, bind, get_feed, lift.
    cbn [w_feed]. unfold fill_candles_begin. rewrite Hset.
    apply Z.ltb_lt in Hmiss. rewrite Hmiss, Hd.
    unfold ret, try_except, fetch_candles, bind, await, lift, _sleep, await.
    destruct (rest_out sc) as [response|e]; cbn.
    + destruct (fetch_candles_array response); cbn.
      * destruct (sleep_out sc); reflexivity.
      * destruct (is_cancelled e); cbn; [reflexivity|].
        destruct (sleep_out sc); reflexivity.
    + destruct (is_cancelled e); cbn; [reflexivity|].
      destruct (sleep_out sc); reflexivity.
  - intros Hskip.
    subst evs. unfold fill_candles_iteration, trace_of, bind, get_feed, lift.
    cbn [w_feed]. unfold fill_candles_begin.
    assert (Hdec : (if _ws_ready_event f
                    then if 0 <? missing_records f
                         then match _candles f with
                              | [] => Raise IndexError
                              | [] :: _ => Raise IndexError
                              | (x :: _) :: _ => Ok (FillRequest x (missing_records f + 1))
                              end
                         else Ok FillSkip
                    else Ok FillSkip) = Ok FillSkip).
    { destruct Hskip as [-> | Hle]; [reflexivity|].
      destruct (_ws_ready_event f); [|reflexivity].
      destruct (Z.ltb_spec 0 (missing_records f)); [lia|reflexivity]. }
    rewrite Hdec. unfold ret, _sleep, await. cbn.
    destruct (sleep_out sc); reflexivity.
Qed.

End RequestFacts.

(** ** fetch_candles *)

Section FetchFacts.
Context {num : Type} `{Numeric num}.

(** C7 (amended). For a response of at least one row, all rows of one
    width [w], [fetch_candles] returns as many rows, in the same order,
    each being the converted entries of the response row without its last
    column, in the same order: [w - 1] columns. *)
Theorem fetch_candles_drops_last_column
        (sc : script num) (end_time : num) (limit : Z) (wd : world num)
        (response : list (list num)) (w : nat) :
  rest_out sc = Ok response ->
  response <> [] ->
  Forall (fun r => length r = w) response ->
  let candles := map (fun r => map astype_float (removelast r)) response in
  outcome_of (fetch_candles sc end_time limit wd) = Returns candles /\
  length candles = length response /\
  Forall (fun r => length r = (w - 1)%nat) candles /\
  (forall i j r x,
      nth_error response i = Some r ->
      nth_error r j = Some x ->
      (j < w - 1)%nat ->
      exists r', nth_error candles i = Some r' /\
                 nth_error r' j = Some (astype_float x)).
Proof.
  intros Hrest Hne Hw candles.
  assert (Harr : fetch_candles_array response = Ok candles).
  { unfold fetch_candles_array. destruct response as [|r0 rest]; [congruence|].
    assert (Hsame : forallb (fun r => (length r =? length r0)%nat) rest = true).
    { apply forallb_forall. intros r Hin. apply Nat.eqb_eq.
      rewrite Forall_forall in Hw.
      rewrite (Hw r0 (or_introl eq_refl)), (Hw r (or_intror Hin)). reflexivity. }
    rewrite Hsame. subst candles. f_equal. apply map_ext.
    intros r. rewrite py_slice_drop_last. reflexivity. }
  split; [|split; [|split]].
  - unfold fetch_candles, outcome_of, bind, await, lift. rewrite Hrest, Harr.
    reflexivity.
  - subst candles. apply length_map.
  - subst candles. apply Forall_forall. intros r' Hin.
    apply in_map_iff in Hin. destruct Hin as (r & <- & Hin).
    rewrite length_map, removelast_firstn_len, length_firstn.
    rewrite Forall_forall in Hw. rewrite (Hw r Hin). lia.
  - intros i j r x Hi Hj Hlt. subst candles.
    exists (map astype_float (removelast r)). split.
    + rewrite nth_error_map, Hi. reflexivity.
    + rewrite nth_error_map, removelast_firstn_len.
      rewrite Forall_forall in Hw.
      assert (Hr : length r = w) by (apply Hw; eapply nth_error_In; eassumption).
      rewrite nth_error_firstn.
      destruct (Nat.ltb_spec j (pred (length r))) as [_|Hge]; [|lia].
      rewrite Hj. reflexivity.
Qed.

End FetchFacts.

(** ** Scenario B *)

(** C2. Capacity 3, the record of 300 alone in the buffer, the event set.
    One pass of the fill loop asks for three rows ending at 300; the
    response holds the rows of 100, 200 and 300, oldest first.  The pass
    keeps the last three rows less the final one, and the buffer becomes
    the rows of 100 and 200 followed by the old record of 300. *)
Theorem scenario_backfill_tick (pa pb pc px : list Z) (ws : option nat) :
  pa <> [] ->
  length pb = length pa ->
  length pc = length pa ->
  let f := {| _candles := [300 :: px]; maxlen := 3; _ws_ready_event := true |} in
  let response := [100 :: pa; 200 :: pb; 300 :: pc] in
  let res := fill_candles_iteration (quiet_script response) {| w_feed := f; w_ws := ws |} in
  outcome_of res = Returns tt /\
  fetch_requests (trace_of res) = [(300, 3)] /\
  kept_rows f [100 :: removelast pa; 200 :: removelast pb; 300 :: removelast pc]
    = [100 :: removelast pa; 200 :: removelast pb] /\
  _candles (w_feed (world_of res))
    = [100 :: removelast pa; 200 :: removelast pb; 300 :: px] /\
  increasingb (_candles (w_feed (world_of res))) = true.
Proof.
  intros Hpa Hpb Hpc f response res.
  assert (Hcons : forall (t : Z) (p : list Z), p <> [] ->
                    py_slice 0 (-1) (t :: p) = t :: removelast p).
  { intros t p Hp. rewrite py_slice_drop_last. cbn [removelast].
    destruct p; [congruence|reflexivity]. }
  assert (Hpb' : pb <> []) by (destruct pb, pa; cbn in *; congruence).
  assert (Hpc' : pc <> []) by (destruct pc, pa; cbn in *; congruence).
  assert (Harr : fetch_candles_array response =
                 Ok [100 :: removelast pa; 200 :: removelast pb; 300 :: removelast pc]).
  { unfold fetch_candles_array, response. cbn [forallb length].
    rewrite Hpb, Hpc, Nat.eqb_refl. cbn [andb map].
    rewrite !Hcons by assumption.
    change (@astype_float Z Numeric_Z) with (fun z : Z => z).
    rewrite !map_id. reflexivity. }
  assert (Hres : res = (Returns tt,
                        {| w_feed := set_candles f
                             [100 :: removelast pa; 200 :: removelast pb; 300 :: px];
                           w_ws := ws |},
                        [EvCall (CFetch 300 3) Returned; EvCall (CSleep 1) Returned])).
  { subst res. unfold fill_candles_iteration, bind, get_feed, lift, try_except,
      fetch_candles, bind, await, lift, put_feed, _sleep, await, ret.
    cbn [w_feed fill_candles_begin f _ws_ready_event missing_records _candles maxlen
         length Z.of_nat Z.sub Z.ltb Z.compare Z.add Pos.of_succ_nat Pos.succ
         Z.opp Z.pos_sub Pos.pred_double Pos.add quiet_script rest_out sleep_out].
    rewrite Harr. reflexivity. }
  rewrite Hres. cbn [outcome_of trace_of world_of fst snd w_feed set_candles _candles].
  repeat split.
Qed.

(** ** The reconnect loop and cancellation *)

Section LoopFacts.
Context {num : Type} `{Numeric num}.
Implicit Types (sc : script num) (w : world num) (h : nat).

(** Handling messages makes no call and no log record, leaves [ws] alone
    and can only fail on a malformed message. *)
Lemma handle_messages_run (ms : list (ws_data num)) : forall w,
  exists o f',
    handle_messages ms w = (o, {| w_feed := f'; w_ws := w_ws w |}, []) /\
    (o = Returns tt \/ o = Raises KeyError \/ o = Raises IndexError).
Proof.
  induction ms as [|data ms IH]; intros w.
  - exists (Returns tt), (w_feed w). destruct w. cbn. auto.
  - cbn [handle_messages]. unfold bind at 1. unfold get_feed.
    unfold bind at 1.
    destruct (process_message (w_feed w) data) as [f1|e] eqn:Hp; cbn [lift].
    + unfold ret at 1. unfold bind at 1. unfold put_feed at 1.
      destruct (IH {| w_feed := f1; w_ws := w_ws w |}) as (o & f' & Heq & Ho).
      rewrite Heq. exists o, f'. cbn. auto.
    + unfold raise. exists (Raises e), (w_feed w). destruct w. cbn. split; [reflexivity|].
      unfold process_message in Hp.
      destruct data as [|ev k]; [discriminate|].
      destruct (is_kline_event ev); [|discriminate].
      destruct k as [k|]; [|injection Hp as <-; auto].
      destruct (_ =? 0)%nat; [discriminate|].
      destruct (last _ _); [injection Hp as <-; auto|].
      destruct (negb _); discriminate.
Qed.

Ltac unfold_loop :=
  unfold listen_iteration, fill_candles_iteration, _subscribe_channels,
    _process_websocket_messages, _connected_websocket_assistant,
    _on_order_stream_interruption, fetch_candles, wait_ready, _sleep,
    try_finally, try_except, bind, await, log, lift, ret, raise,
    get_ws, set_ws, get_feed, put_feed, outcome_of, trace_of, world_of.

(** Replace the message handling by its three possible results. *)
Ltac run_messages :=
  match goal with
  | |- context [handle_messages ?ms ?w'] =>
      let o := fresh "o" in
      let f' := fresh "f'" in
      let Heq := fresh "Hmsgs" in
      let Ho := fresh "Ho" in
      destruct (handle_messages_run ms w') as (o & f' & Heq & Ho);
      cbn [w_ws w_feed] in Heq; rewrite Heq;
      destruct Ho as [-> | [-> | ->]]
  end.

(** Case analysis on how the awaited calls of the script end. *)
Ltac crunch :=
  repeat (cbn in *;
          match goal with
          | |- context [handle_messages _ _] => run_messages
          | |- context [match ?x with _ => _ end] => is_var x; destruct x
          | |- context [is_cancelled ?e] => is_var e; destruct e
          | |- context [fill_candles_begin ?f] =>
              destruct (fill_candles_begin f) as [[|? ?]|?]
          | |- context [fetch_candles_array ?r] => destruct (fetch_candles_array r)
          | |- context [if _ws_ready_event ?f then _ else _] =>
              destruct (_ws_ready_event f) eqn:?
          | H : context [match ?x with _ => _ end] |- _ => is_var x; destruct x
          | H : context [is_cancelled ?e] |- _ => is_var e; destruct e
          end).

(** Every pass of the listen loop begins with the connect call. *)
Lemma listen_iteration_starts_with_connect sc w :
  exists rest,
    trace_of (listen_iteration sc w) =
    EvCall CConnect (ending_of (connect_out sc)) :: rest.
Proof.
  destruct sc as [co so wc st se sl dc ro], w as [f ws].
  unfold_loop. crunch; eexists; reflexivity.
Qed.

Lemma while_true_next (body : script num -> M unit) sc sc' w :
  outcome_of (body sc w) = Returns tt ->
  trace_of (while_true body [sc; sc'] w) =
  trace_of (body sc w) ++ trace_of (body sc' (world_of (body sc w))).
Proof.
  unfold outcome_of, trace_of, world_of. cbn [while_true]. unfold bind, ret.
  destruct (body sc w) as [[o w1] ev1]. cbn. intros ->.
  destruct (body sc' w1) as [[o2 w2] ev2]. cbn.
  destruct o2; cbn; rewrite ?app_nil_r; reflexivity.
Qed.

(** A pass that raises is the last one. *)
Lemma while_true_stops (body : script num -> M unit) sc scs w e :
  outcome_of (body sc w) = Raises e ->
  while_true body (sc :: scs) w = body sc w.
Proof.
  unfold outcome_of. cbn [while_true]. unfold bind.
  destruct (body sc w) as [[o w1] ev1]. cbn. intros ->. reflexivity.
Qed.

(** C9 (amended). In one pass of the reconnect loop whose connect call
    returned the assistant [h]:
    - when the stream raises a connection error, a warning is logged, the
      connection is closed and, if closing returns, the next pass starts
      with its connect call: nothing is slept;
    - when the subscribe request fails with an exception other than a
      cancellation, [_subscribe_channels] logs the error and waits on the
      ready event before raising the same exception again (with the event
      unset it stays there unless cancelled);
    - when that exception is not a connection error either and the wait
      returns, the loop logs it, sleeps exactly once, for 1 second, closes
      the connection and starts the next pass with its connect call. *)
Theorem reconnect_delay_policy sc sc' w h :
  connect_out sc = Ok h ->
  let res := listen_iteration sc w in
  (send_out sc = Ok tt ->
   outcome_of (handle_messages (stream sc) {| w_feed := w_feed w; w_ws := Some h |})
     = Returns tt ->
   stream_end sc = Some ConnectionError ->
   trace_of res =
     [EvCall CConnect Returned; EvCall (CSend h) Returned; EvLog LogInfo;
      EvCall (CIterMessages h) (Threw ConnectionError); EvLog LogWarning;
      EvCall (CDisconnect h) (ending_of (disconnect_out sc))] /\
   delays (trace_of res) = [] /\
   (disconnect_out sc = Ok tt ->
    outcome_of res = Returns tt /\
    exists rest,
      trace_of (while_true listen_iteration [sc; sc'] w) =
      trace_of res ++ EvCall CConnect (ending_of (connect_out sc')) :: rest)) /\
  (forall e,
      send_out sc = Raise e ->
      is_cancelled e = false ->
      let sub := _subscribe_channels sc h w in
      let waited :=
        if _ws_ready_event (w_feed w) then Returned
        else if wait_cancelled sc then Threw CancelledError else Pending in
      trace_of sub = [EvCall (CSend h) (Threw e); EvLog LogError; EvCall CWaitReady waited] /\
      outcome_of sub =
        (if _ws_ready_event (w_feed w) then Raises e
         else if wait_cancelled sc then Raises CancelledError else Suspended) /\
      (is_connection_error e = false ->
       _ws_ready_event (w_feed w) = true ->
       trace_of res =
         [EvCall CConnect Returned; EvCall (CSend h) (Threw e); EvLog LogError;
          EvCall CWaitReady Returned; EvLog LogException;
          EvCall (CSleep 1) (ending_of (sleep_out sc));
          EvCall (CDisconnect h) (ending_of (disconnect_out sc))] /\
       delays (trace_of res) = [1] /\
       (sleep_out sc = Ok tt ->
        disconnect_out sc = Ok tt ->
        outcome_of res = Returns tt /\
        exists rest,
          trace_of (while_true listen_iteration [sc; sc'] w) =
          trace_of res ++ EvCall CConnect (ending_of (connect_out sc')) :: rest))).
Proof.
  intros Hconnect res.
  assert (Hnext : outcome_of res = Returns tt ->
                  exists rest,
                    trace_of (while_true listen_iteration [sc; sc'] w) =
                    trace_of res ++ EvCall CConnect (ending_of (connect_out sc')) :: rest).
  { intros Hres. subst res. rewrite (while_true_next _ _ _ _ Hres).
    destruct (listen_iteration_starts_with_connect sc'
                (world_of (listen_iteration sc w))) as [rest ->].
    exists rest. reflexivity. }
  destruct sc as [co so wc st se sl dc ro], w as [f ws].
  cbn [connect_out send_out stream stream_end sleep_out disconnect_out
       wait_cancelled w_feed w_ws] in *.
  subst co. split.
  - intros -> Hmsgs ->.
    assert (Hres : trace_of res =
                     [EvCall CConnect Returned; EvCall (CSend h) Returned; EvLog LogInfo;
                      EvCall (CIterMessages h) (Threw ConnectionError); EvLog LogWarning;
                      EvCall (CDisconnect h) (ending_of dc)] /\
                   (dc = Ok tt -> outcome_of res = Returns tt)).
    { subst res. clear Hnext.
      destruct (handle_messages_run st {| w_feed := f; w_ws := Some h |})
        as (o & f' & Heq & _).
      rewrite Heq in Hmsgs. cbn in Hmsgs. subst o.
      unfold_loop. cbn. rewrite Heq. cbn.
      split; [destruct dc; reflexivity|]. intros ->. reflexivity. }
    destruct Hres as [Ht Ho]. split; [exact Ht|]. split; [rewrite Ht; reflexivity|].
    intros Hd. split; [exact (Ho Hd)|]. apply Hnext, Ho, Hd.
  - intros e -> Hnc.
    split; [|split].
    + unfold_loop. destruct e; try discriminate; cbn;
        destruct (_ws_ready_event f); try reflexivity;
        destruct wc; reflexivity.
    + unfold_loop. destruct e; try discriminate; cbn;
        destruct (_ws_ready_event f); try reflexivity;
        destruct wc; reflexivity.
    + intros Hne Hready.
      assert (Hres : trace_of res =
                       [EvCall CConnect Returned; EvCall (CSend h) (Threw e);
                        EvLog LogError; EvCall CWaitReady Returned; EvLog LogException;
                        EvCall (CSleep 1) (ending_of sl);
                        EvCall (CDisconnect h) (ending_of dc)] /\
                     (sl = Ok tt -> dc = Ok tt -> outcome_of res = Returns tt)).
      { subst res. clear Hnext. unfold_loop.
        destruct e; try discriminate; cbn; rewrite Hready; cbn;
          (split; [destruct sl, dc; reflexivity | intros -> ->; reflexivity]). }
      destruct Hres as [Ht Ho]. split; [exact Ht|]. split; [rewrite Ht; reflexivity|].
      intros Hs Hd. split; [exact (Ho Hs Hd)|]. apply Hnext, Ho; assumption.
Qed.



(** X22. A pass of the fill loop with no live message in between leaves
    the feed as the tick step followed by the return step leaves it, for
    every way in which the REST call and the sleep end. *)
Lemma fill_iteration_matches_steps sc (f : feed num) ws :
  w_feed (world_of (fill_candles_iteration sc {| w_feed := f; w_ws := ws |})) =
  sys_feed (exec (exec {| sys_feed := f; sys_fill := FillIdle |} LFillTick)
                 (LFillReturn (rest_out sc))).
Proof.
  destruct sc as [co so wc st se sl dc ro].
  unfold_loop. cbn [exec sys_fill sys_feed w_feed rest_out sleep_out].
  destruct (fill_candles_begin f) as [[|x lim]|e]; cbn.
  - destruct sl; reflexivity.
  - destruct ro as [response|e]; cbn.
    + destruct (fetch_candles_array response) as [candles|e]; cbn.
      * destruct sl; reflexivity.
      * destruct e; cbn; try reflexivity; destruct sl; reflexivity.
    + destruct e; cbn; try reflexivity; destruct sl; reflexivity.
  - reflexivity.
Qed.

(** C8 (amended). Take the first awaited call of a pass that ends in a
    cancellation.
    - In a pass of the fill loop and in [_subscribe_channels] it is the
      last thing that happens: no log record, no sleep, no further call;
      the pass raises the cancellation.
    - In a pass of the listen loop nothing follows it but the close call
      of the [finally] block; the pass raises the cancellation, unless
      that close call raises, in which case it raises what the close call
      raised.
    In all cases the loop ends with this pass: no later pass runs. *)
Theorem cancellation_ends_the_loop sc w h scs rest :
  (after_cancel (trace_of (fill_candles_iteration sc w)) = Some rest ->
   rest = [] /\
   outcome_of (fill_candles_iteration sc w) = Raises CancelledError /\
   fill_candles_loop (sc :: scs) w = fill_candles_iteration sc w) /\
  (after_cancel (trace_of (_subscribe_channels sc h w)) = Some rest ->
   rest = [] /\
   outcome_of (_subscribe_channels sc h w) = Raises CancelledError) /\
  (after_cancel (trace_of (listen_iteration sc w)) = Some rest ->
   (rest = [] /\ outcome_of (listen_iteration sc w) = Raises CancelledError \/
    exists h',
      rest = [EvCall (CDisconnect h') (ending_of (disconnect_out sc))] /\
      outcome_of (listen_iteration sc w) =
        match disconnect_out sc with
        | Ok _ => Raises CancelledError
        | Raise e => Raises e
        end) /\
   while_true listen_iteration (sc :: scs) w = listen_iteration sc w).
Proof.
  split; [|split].
  - intros Hc.
    assert (Hpass : rest = [] /\
                    outcome_of (fill_candles_iteration sc w) = Raises CancelledError).
    { revert Hc. destruct sc as [co so wc st se sl dc ro], w as [f ws].
      unfold_loop. crunch; intros Hc; try discriminate;
        injection Hc as <-; split; reflexivity. }
    destruct Hpass as [Hrest Hout]. split; [exact Hrest|]. split; [exact Hout|].
    apply while_true_stops with (e := CancelledError). exact Hout.
  - revert rest. destruct sc as [co so wc st se sl dc ro], w as [f ws].
    unfold_loop. crunch; intros rest Hc; try discriminate;
      injection Hc as <-; split; reflexivity.
  - intros Hc.
    assert (Hpass :
              (rest = [] /\ outcome_of (listen_iteration sc w) = Raises CancelledError \/
               exists h',
                 rest = [EvCall (CDisconnect h') (ending_of (disconnect_out sc))] /\
                 outcome_of (listen_iteration sc w) =
                   match disconnect_out sc with
                   | Ok _ => Raises CancelledError
                   | Raise e => Raises e
                   end) /\
              exists e, outcome_of (listen_iteration sc w) = Raises e).
    { revert Hc. destruct sc as [co so wc st se sl dc ro], w as [f ws].
      unfold_loop. crunch; intros Hc; try discriminate;
        injection Hc as <-;
        (split; [first [left; split; reflexivity
                       | right; eexists; split; reflexivity]
                | eexists; reflexivity]). }
    destruct Hpass as [Hrest [e Hout]]. split; [exact Hrest|].
    apply while_true_stops with (e := e). exact Hout.
Qed.

(** ** More of the two loops *)

Ltac find_prefix :=
  first [ exists []; split; reflexivity
        | eexists (_ :: nil); split; reflexivity
        | eexists (_ :: _ :: nil); split; reflexivity
        | eexists (_ :: _ :: _ :: nil); split; reflexivity
        | eexists (_ :: _ :: _ :: _ :: nil); split; reflexivity ].

(** X8. A pass of the fill loop makes at most one request and sleeps at
    most once, for 1 second; a pass that completes has slept that second
    as its last act, whether it asked for rows or not and whether the
    request failed or not. *)
Theorem fill_pass_pacing sc w :
  let res := fill_candles_iteration sc w in
  (length (fetch_requests (trace_of res)) <= 1)%nat /\
  (delays (trace_of res) = [] \/ delays (trace_of res) = [1]) /\
  (outcome_of res = Returns tt ->
   exists evs, trace_of res = evs ++ [EvCall (CSleep 1) Returned] /\ delays evs = []).
Proof.
  destruct sc as [co so wc st se sl dc ro], w as [f ws].
  unfold_loop. crunch; cbn;
    (split; [lia|]; split; [auto|]; intros Hout; try discriminate; find_prefix).
Qed.

(** X9. When the [fetch_candles] call of a pass fails with anything but a
    cancellation, whether the REST call raised or the response could not
    be turned into a two-dimensional array, the pass logs the exception,
    leaves the feed as it was, sleeps its second and, if the sleep
    returns, completes: the loop goes on. *)
Theorem backfill_failure_is_not_fatal sc w x lim e :
  fill_candles_begin (w_feed w) = Ok (FillRequest x lim) ->
  outcome_of (fetch_candles sc x lim w) = Raises e ->
  is_cancelled e = false ->
  let res := fill_candles_iteration sc w in
  trace_of res =
    trace_of (fetch_candles sc x lim w) ++
    [EvLog LogException; EvCall (CSleep 1) (ending_of (sleep_out sc))] /\
  world_of res = w /\
  (sleep_out sc = Ok tt -> outcome_of res = Returns tt).
Proof.
  destruct sc as [co so wc st se sl dc ro], w as [f ws].
  cbn [w_feed sleep_out]. intros Hbegin.
  unfold_loop. cbn [w_feed rest_out sleep_out]. rewrite Hbegin.
  destruct ro as [response|e0]; cbn.
  - destruct (fetch_candles_array response) as [candles|e1]; cbn;
      [discriminate|].
    intros He. injection He as ->. intros Hnc.
    destruct e; try discriminate; cbn;
      (split; [reflexivity|]; split; [destruct sl; reflexivity|]; intros ->; reflexivity).
  - intros He. injection He as ->. intros Hnc.
    destruct e; try discriminate; cbn;
      (split; [reflexivity|]; split; [destruct sl; reflexivity|]; intros ->; reflexivity).
Qed.

Lemma handle_messages_cons (data : ws_data num) (ms : list (ws_data num)) w :
  handle_messages (data :: ms) w =
  match process_message (w_feed w) data with
  | Ok f1 => handle_messages ms {| w_feed := f1; w_ws := w_ws w |}
  | Raise e => (Raises e, w, [])
  end.
Proof.
  cbn [handle_messages]. unfold bind, get_feed, lift, put_feed, ret, raise.
  destruct (process_message (w_feed w) data) as [f1|e]; [|reflexivity].
  destruct (handle_messages ms {| w_feed := f1; w_ws := w_ws w |}) as [[o w2] ev].
  destruct o; reflexivity.
Qed.

Lemma handle_messages_as_steps (ms : list (ws_data num)) : forall w pc,
  outcome_of (handle_messages ms w) = Returns tt ->
  w_feed (world_of (handle_messages ms w)) =
  sys_feed (run {| sys_feed := w_feed w; sys_fill := pc |} (messages ms)).
Proof.
  induction ms as [|data ms IH]; intros w pc; [reflexivity|].
  rewrite handle_messages_cons.
  cbn [messages map]. unfold run. cbn [fold_left exec sys_feed sys_fill].
  destruct (process_message (w_feed w) data) as [f1|e].
  - intros Hall. apply (IH {| w_feed := f1; w_ws := w_ws w |} pc Hall).
  - discriminate.
Qed.

(** X10. A pass of the listen loop that has connected and subscribed
    leaves the feed as the handling of the delivered messages, one after
    the other, leaves it, however the stream ends and however the sleep
    and the close call end: nothing is undone. *)
Theorem listen_pass_handles_messages sc w h pc :
  connect_out sc = Ok h ->
  send_out sc = Ok tt ->
  outcome_of (handle_messages (stream sc) {| w_feed := w_feed w; w_ws := Some h |})
    = Returns tt ->
  w_feed (world_of (listen_iteration sc w)) =
  sys_feed (run {| sys_feed := w_feed w; sys_fill := pc |} (messages (stream sc))).
Proof.
  destruct sc as [co so wc st se sl dc ro], w as [f ws].
  cbn [connect_out send_out stream w_feed]. intros -> -> Hall.
  pose proof (handle_messages_as_steps st {| w_feed := f; w_ws := Some h |} pc Hall)
    as Hsteps.
  cbn [w_feed] in Hsteps. rewrite <- Hsteps. clear Hsteps.
  destruct (handle_messages_run st {| w_feed := f; w_ws := Some h |})
    as (o & f' & Heq & _).
  rewrite Heq in Hall |- *. cbn in Hall. subst o.
  unfold_loop. cbn. rewrite Heq. cbn.
  destruct se as [e|]; cbn; [destruct e; cbn|]; destruct sl, dc; reflexivity.
Qed.

(** X11. Every pass of the listen loop makes exactly one connect call and
    at most one close call, and sleeps at most once, for 1 second; it
    sleeps only after logging an exception. *)
Theorem listen_pass_shape sc w :
  let evs := trace_of (listen_iteration sc w) in
  length (filter is_connect evs) = 1%nat /\
  (length (filter is_close evs) <= 1)%nat /\
  (delays evs = [] \/
   delays evs = [1] /\ existsb is_exception_log evs = true).
Proof.
  destruct sc as [co so wc st se sl dc ro], w as [f ws].
  unfold_loop. crunch; cbn; (split; [reflexivity|]; split; [lia|]; auto).
Qed.

(** X12. When the message iterator is exhausted without an error, the
    pass logs nothing further, closes the connection and, if the close
    call returns, completes without a sleep: the loop reconnects at once. *)
Theorem exhausted_stream_reconnects sc w h :
  connect_out sc = Ok h ->
  send_out sc = Ok tt ->
  outcome_of (handle_messages (stream sc) {| w_feed := w_feed w; w_ws := Some h |})
    = Returns tt ->
  stream_end sc = None ->
  let res := listen_iteration sc w in
  trace_of res =
    [EvCall CConnect Returned; EvCall (CSend h) Returned; EvLog LogInfo;
     EvCall (CIterMessages h) Returned;
     EvCall (CDisconnect h) (ending_of (disconnect_out sc))] /\
  (disconnect_out sc = Ok tt -> outcome_of res = Returns tt).
Proof.
  destruct sc as [co so wc st se sl dc ro], w as [f ws].
  cbn [connect_out send_out stream stream_end disconnect_out w_feed].
  intros -> -> Hall ->.
  destruct (handle_messages_run st {| w_feed := f; w_ws := Some h |})
    as (o & f' & Heq & _).
  rewrite Heq in Hall. cbn in Hall. subst o.
  unfold_loop. cbn. rewrite Heq. cbn.
  split; [destruct dc; reflexivity|]. intros ->. reflexivity.
Qed.

(** X13. If the subscribe request fails, with anything but a cancellation,
    while the ready event is not set, the listen loop stays suspended in
    [_subscribe_channels]: it waits for an event that only its own message
    handling sets.  No close call is made, no later pass runs, and the
    feed is left as it was. *)
Theorem subscribe_failure_before_first_kline_hangs sc scs w h e :
  _ws_ready_event (w_feed w) = false ->
  connect_out sc = Ok h ->
  send_out sc = Raise e ->
  is_cancelled e = false ->
  wait_cancelled sc = false ->
  let res := listen_for_subscriptions (sc :: scs) w in
  outcome_of res = Suspended /\
  trace_of res =
    [EvCall CConnect Returned; EvCall (CSend h) (Threw e); EvLog LogError;
     EvCall CWaitReady Pending] /\
  w_feed (world_of res) = w_feed w.
Proof.
  destruct sc as [co so wc st se sl dc ro], w as [f ws].
  cbn [connect_out send_out wait_cancelled w_feed].
  intros Hunset -> -> Hnc ->.
  unfold listen_for_subscriptions. cbn [while_true].
  unfold_loop. cbn. destruct e; try discriminate; cbn; rewrite Hunset; cbn;
    repeat split.
Qed.

(** X14. The variable [ws] of the listen loop keeps the assistant of the
    last connect call that returned.  So a pass whose connect call fails
    makes its close call on the assistant of an earlier pass, which that
    pass has closed already, and makes none if no connect call has
    returned yet; it sleeps unless the failure is a connection error. *)
Theorem failed_connect_closes_previous_assistant sc w :
  let res := listen_iteration sc w in
  (forall e,
      connect_out sc = Raise e ->
      is_cancelled e = false ->
      trace_of res =
        EvCall CConnect (Threw e)
        :: (if is_connection_error e then [EvLog LogWarning]
            else [EvLog LogException; EvCall (CSleep 1) (ending_of (sleep_out sc))])
        ++ match w_ws w with
           | Some h0 => [EvCall (CDisconnect h0) (ending_of (disconnect_out sc))]
           | None => []
           end /\
      world_of res = w) /\
  (forall h, connect_out sc = Ok h -> w_ws (world_of res) = Some h).
Proof.
  destruct sc as [co so wc st se sl dc ro], w as [f ws].
  cbn [connect_out sleep_out disconnect_out w_ws]. split.
  - intros e -> Hnc. unfold_loop.
    destruct e; try discriminate; cbn; destruct ws; cbn;
      destruct sl, dc; split; reflexivity.
  - intros h ->. unfold_loop. crunch; reflexivity.
Qed.

End LoopFacts.

(** ** Restarting the network *)

Lemma running_fill_unfold (n : network) :
  running FillCandlesLoop n = length (filter (task_running FillCandlesLoop) (tasks n)).
Proof. reflexivity. Qed.

(** Cancelling a listen task does not touch the fill tasks. *)
Lemma cancel_listen_keeps_fill (ts : list task) : forall i t,
  nth_error ts i = Some t ->
  task_coro t = ListenForSubscriptions ->
  filter (task_running FillCandlesLoop) (cancel ts i) = filter (task_running FillCandlesLoop) ts.
Proof.
  induction ts as [|t0 ts IH]; intros i t Hnth Hcoro; [reflexivity|].
  destruct i as [|i]; cbn [cancel filter nth_error] in *.
  - injection Hnth as ->. unfold task_running, is_coro. cbn [task_coro].
    rewrite Hcoro. reflexivity.
  - rewrite (IH i t Hnth Hcoro). reflexivity.
Qed.

(** X23. After any sequence of [start_network] and [stop_network] calls
    on a fresh feed: the attribute that [stop_network] cancels first is
    still unassigned, the listen attribute names a listen task, and as
    many fill loops are running as [start_network] was called, none of
    them ever cancelled. *)
Lemma fill_tasks_pile_up (calls : list network_call) :
  let n := fold_left network_step calls init_network in
  _fetch_candles_task n = None /\
  match _listen_candles_task n with
  | Some i => exists t, nth_error (tasks n) i = Some t /\
                        task_coro t = ListenForSubscriptions
  | None => True
  end /\
  running FillCandlesLoop n =
  length (filter is_start calls).
Proof.
  cbv zeta. induction calls as [|c calls IH] using rev_ind.
  - cbn. auto.
  - rewrite fold_left_app, filter_app, length_app. cbn [fold_left].
    set (n := fold_left network_step calls init_network) in *.
    destruct IH as (Hfetch & Hlisten & Hcount).
    assert (Hstop : _fetch_candles_task (stop_network n) = None /\
                    _listen_candles_task (stop_network n) = None /\
                    filter (task_running FillCandlesLoop) (tasks (stop_network n)) =
                    filter (task_running FillCandlesLoop) (tasks n)).
    { unfold stop_network. rewrite Hfetch.
      destruct (_listen_candles_task n) as [i|] eqn:Hl; cbn.
      - destruct Hlisten as (t & Hnth & Hcoro).
        split; [exact Hfetch|]. split; [reflexivity|].
        eapply cancel_listen_keeps_fill; eassumption.
      - rewrite Hl. auto. }
    destruct Hstop as (Hf1 & Hl1 & Hkeep).
    destruct c; cbn [network_step filter length].
    + unfold start_network, safe_ensure_future.
      cbn [_fetch_candles_task _listen_candles_task tasks].
      split; [exact Hf1|]. split.
      * exists {| task_coro := ListenForSubscriptions; task_cancelled := false |}.
        split; [|reflexivity].
        rewrite nth_error_app2 by lia. rewrite Nat.sub_diag. reflexivity.
      * rewrite running_fill_unfold. cbn [tasks].
        rewrite !filter_app, !length_app, Hkeep, <- running_fill_unfold, Hcount.
        cbn. lia.
    + split; [exact Hf1|]. split; [rewrite Hl1; exact I|].
      rewrite running_fill_unfold, Hkeep, <- running_fill_unfold, Hcount.
      cbn. lia.
Qed.

(** C3 (the code at the failing input). Two calls of [start_network] on a
    fresh feed: [stop_network] looks at [_fetch_candles_task], which
    nothing assigns, so the first fill task is not cancelled and two fill
    loops are running; the listen task is replaced as intended.  A
    [stop_network] after a [start_network] likewise leaves the fill loop
    running. *)
Theorem restart_leaves_old_fill_loop :
  let twice := fold_left network_step [Start; Start] init_network in
  let thrice := fold_left network_step [Start; Start; Start] init_network in
  let stopped := fold_left network_step [Start; Stop] init_network in
  running FillCandlesLoop twice = 2%nat /\
  running FillCandlesLoop thrice = 3%nat /\
  running ListenForSubscriptions twice = 1%nat /\
  _fetch_candles_task twice = None /\
  running FillCandlesLoop stopped = 1%nat /\
  running ListenForSubscriptions stopped = 0%nat.
Proof. cbv. repeat split. Qed.

(** ** Concrete runs: the theorems at work, and where a statement stops
       holding *)

(** C1 as stated, with only the two assumptions on the environment, fails:
    in [unordered_run] both hold (the kept rows of 200 and 100 open before
    300) and the buffer ends up as 200, 100, 300. *)
Lemma unordered_response_breaks_order :
  ~ (forall (max_records : nat) (ls : list (label Z)),
        respects boundary_assumptions (init_system max_records) ls = true ->
        buffer_invariant (sys_feed (run (init_system max_records) ls))).
Proof.
  intros Hclaim.
  destruct (Hclaim 3%nat unordered_run eq_refl) as [_ Hi].
  assert (Hlen : (1 < length (_candles (sys_feed (run (init_system 3) unordered_run))))%nat)
    by (vm_compute; lia).
  specialize (Hi Hlen). vm_compute in Hi. discriminate.
Qed.

(** The invariant on [ordered_run], whose steps meet the three assumptions. *)
Lemma buffer_invariant_witness :
  respects ordering_assumptions (init_system 3) ordered_run = true /\
  maxlen (sys_feed (run (init_system 3) ordered_run)) = 3%nat /\
  buffer_invariant (sys_feed (run (init_system 3) ordered_run)).
Proof.
  split; [reflexivity|].
  exact (buffer_invariant_along_runs 3%nat ordered_run eq_refl).
Defined.

(** Scenario B with rows of twelve columns. *)
Lemma scenario_backfill_tick_witness :
  _candles (w_feed (world_of
     (fill_candles_iteration
        (quiet_script [rest_row 100; rest_row 200; rest_row 300])
        {| w_feed := feed_300; w_ws := None |})))
  = [candle_at 100; candle_at 200; candle_at 300].
Proof.
  apply (scenario_backfill_tick (tl (rest_row 100)) (tl (rest_row 200))
           (tl (rest_row 300)) (tl (candle_at 300)) None);
    [discriminate | reflexivity | reflexivity].
Defined.

(** Scenario E: a kline of 300 with another close value on [feed_300]. *)
Lemma same_open_time_witness :
  process_message feed_300 (kline_message 300 99) = Ok feed_300 /\
  k_c (kline_at 300 99) <> k_c (kline_at 300 11).
Proof.
  split; [|discriminate].
  apply (same_open_time_is_ignored feed_300 (Some "kline"%string) (kline_at 300 99)
           (Some "kline"%string) (kline_at 300 55) 300 (tl (candle_at 300)));
    [reflexivity | reflexivity | discriminate | reflexivity | reflexivity].
Defined.

(** A full buffer of capacity 2 stays full. *)
Lemma is_ready_witness :
  is_ready (sys_feed full_system) = true /\
  is_ready (sys_feed (run full_system [LMessage (kline_message 300 11); LFillTick])) = true.
Proof.
  split; [reflexivity|].
  apply (is_ready_never_reverts full_system
           [LMessage (kline_message 300 11); LFillTick]
           (LMessage (kline_message 400 11))).
  reflexivity.
Defined.

(** After one live candle of 300 in capacity 3: one request, ending at
    300, for three rows. *)
Lemma backfill_request_witness :
  respects response_has_open_times (init_system 3) [LMessage (kline_message 300 11)] = true /\
  fetch_requests
    (trace_of (fill_candles_iteration (quiet_script [rest_row 100; rest_row 200; rest_row 300])
                 {| w_feed := sys_feed (run (init_system 3) [LMessage (kline_message 300 11)]);
                    w_ws := None |}))
  = [(300, 3)].
Proof.
  split; [reflexivity|].
  destruct (backfill_request_per_tick 3%nat [LMessage (kline_message 300 11)]
              (quiet_script [rest_row 100; rest_row 200; rest_row 300]) None eq_refl)
    as [Hreq _].
  destruct (Hreq eq_refl eq_refl) as (x & rest & d & Hhead & Hfetch).
  injection Hhead as <- _ _. exact Hfetch.
Defined.

(** C6 as stated, for every tick, fails: in [narrow_run] the response has
    rows of one column, the kept row is an array without entries and goes
    to the head of the buffer.  On the next tick the event is set and one
    record is missing, but reading [self._candles[0][0]] raises: the pass
    makes no request at all. *)
Lemma narrow_response_stops_requests :
  ~ (forall (max_records : nat) (ls : list (label Z)) (sc : script Z) (ws : option nat),
        let f := sys_feed (run (init_system max_records) ls) in
        let evs := trace_of (fill_candles_iteration sc {| w_feed := f; w_ws := ws |}) in
        _ws_ready_event f = true ->
        0 < missing_records f ->
        exists end_time, fetch_requests evs = [(end_time, missing_records f + 1)]).
Proof.
  intros Hclaim.
  destruct (Hclaim 3%nat narrow_run (quiet_script []) None eq_refl eq_refl)
    as [end_time Hreq].
  vm_compute in Hreq. discriminate.
Qed.

(** C9 as stated fails in both halves.  After a connection error on the
    stream the loop does not go on when the close call raises: the pass
    ends with that exception.  After a failed subscribe request on a feed
    whose event is not set the pass does not sleep: it stays in the wait on
    the event. *)
Lemma reconnect_needs_close_and_event :
  ~ (forall (sc : script Z) (w : world Z) (h : nat),
        connect_out sc = Ok h ->
        send_out sc = Ok tt ->
        outcome_of (handle_messages (stream sc) {| w_feed := w_feed w; w_ws := Some h |})
          = Returns tt ->
        stream_end sc = Some ConnectionError ->
        outcome_of (listen_iteration sc w) = Returns tt) /\
  ~ (forall (sc : script Z) (w : world Z) (h : nat) (e : exn),
        connect_out sc = Ok h ->
        send_out sc = Raise e ->
        is_cancelled e = false ->
        is_connection_error e = false ->
        delays (trace_of (listen_iteration sc w)) = [1]).
Proof.
  split.
  - intros Hclaim.
    specialize (Hclaim drop_then_close_fails fresh_world 0%nat
                  eq_refl eq_refl eq_refl eq_refl).
    vm_compute in Hclaim. discriminate.
  - intros Hclaim.
    specialize (Hclaim subscribe_fails fresh_world 0%nat OtherError
                  eq_refl eq_refl eq_refl eq_refl).
    vm_compute in Hclaim. discriminate.
Qed.

(** C7 as stated fails for the empty response: the array is
    one-dimensional and the column slice raises. *)
Lemma empty_response_raises :
  ~ (forall (sc : script Z) (end_time limit : Z) (wd : world Z)
            (response : list (list Z)) (w : nat),
        rest_out sc = Ok response ->
        Forall (fun r => length r = w) response ->
        exists candles,
          outcome_of (fetch_candles sc end_time limit wd) = Returns candles /\
          length candles = length response /\
          Forall (fun r => length r = (w - 1)%nat) candles).
Proof.
  intros Hclaim.
  destruct (Hclaim (quiet_script []) 300 3 fresh_world [] 12%nat eq_refl (Forall_nil _))
    as (candles & Hout & _).
  vm_compute in Hout. discriminate.
Qed.

(** Scenario C: five rows of twelve columns become five of eleven. *)
Lemma fetch_candles_witness :
  rest_out (quiet_script five_rows) = Ok five_rows /\
  five_rows <> [] /\
  Forall (fun r => length r = 12%nat) five_rows /\
  outcome_of (fetch_candles (quiet_script five_rows) 600 5 fresh_world)
  = Returns [candle_at 100; candle_at 200; candle_at 300; candle_at 400; candle_at 500].
Proof.
  assert (Hw : Forall (fun r => length r = 12%nat) five_rows)
    by (repeat constructor).
  assert (Hne : five_rows <> []) by discriminate.
  split; [reflexivity|]. split; [exact Hne|]. split; [exact Hw|].
  exact (proj1 (fetch_candles_drops_last_column (quiet_script five_rows) 600 5
                  fresh_world five_rows 12%nat eq_refl Hne Hw)).
Defined.

(** C8 as stated fails in the listen loop: with the stream cancelled and
    the close call of the [finally] block raising a connection error, the
    caller gets the connection error. *)
Lemma close_failure_replaces_cancellation :
  ~ (forall (sc : script Z) (w : world Z) (rest : list (event Z)),
        after_cancel (trace_of (listen_iteration sc w)) = Some rest ->
        outcome_of (listen_iteration sc w) = Raises CancelledError).
Proof.
  intros Hclaim.
  specialize (Hclaim cancel_then_close_fails fresh_world
                [EvCall (CDisconnect 0%nat) (Threw ConnectionError)] eq_refl).
  vm_compute in Hclaim. discriminate.
Qed.

(** A cancelled stream with a close call that returns: the close call is
    all that follows, the cancellation is raised, no second pass runs. *)
Lemma cancellation_witness :
  after_cancel (trace_of (listen_iteration cancelled_stream fresh_world))
  = Some [EvCall (CDisconnect 0%nat) Returned] /\
  outcome_of (listen_iteration cancelled_stream fresh_world) = Raises CancelledError /\
  while_true listen_iteration [cancelled_stream; cancelled_stream] fresh_world
  = listen_iteration cancelled_stream fresh_world.
Proof.
  split; [reflexivity|].
  destruct (proj2 (proj2 (cancellation_ends_the_loop cancelled_stream fresh_world 0%nat
                            [cancelled_stream] [EvCall (CDisconnect 0%nat) Returned]))
              eq_refl) as [_ Hstop].
  split; [reflexivity|exact Hstop].
Defined.

(** Scenario D.  A dropped stream: no sleep, the loop goes on.  A failed
    subscribe request with the event set: one sleep of 1 second, the loop
    goes on. *)
Lemma reconnect_witness :
  connect_out dropped_stream = Ok 0%nat /\
  delays (trace_of (listen_iteration dropped_stream fresh_world)) = [] /\
  outcome_of (listen_iteration dropped_stream fresh_world) = Returns tt /\
  connect_out subscribe_fails = Ok 0%nat /\
  _ws_ready_event (w_feed world_300) = true /\
  delays (trace_of (listen_iteration subscribe_fails world_300)) = [1] /\
  outcome_of (listen_iteration subscribe_fails world_300) = Returns tt.
Proof.
  split; [reflexivity|].
  destruct (reconnect_delay_policy dropped_stream dropped_stream fresh_world 0%nat eq_refl)
    as [Hstream _].
  destruct (Hstream eq_refl eq_refl eq_refl) as (_ & Hdelays & Hnext).
  split; [exact Hdelays|]. split; [exact (proj1 (Hnext eq_refl))|].
  split; [reflexivity|]. split; [reflexivity|].
  destruct (reconnect_delay_policy subscribe_fails dropped_stream world_300 0%nat eq_refl)
    as [_ Hsub].
  destruct (Hsub OtherError eq_refl eq_refl) as (_ & _ & Hloop).
  destruct (Hloop eq_refl eq_refl) as (_ & Hone & Hgo).
  split; [exact Hone|]. exact (proj1 (Hgo eq_refl eq_refl)).
Defined.

(** The prepend on [feed_300]: two rows in front, the record of 300 kept. *)
Lemma backfill_prepend_witness :
  (length (_candles (sys_feed awaiting_300)) <= maxlen (sys_feed awaiting_300))%nat /\
  sys_fill awaiting_300 = FillAwaiting 300 /\
  fetch_candles_array [rest_row 100; rest_row 200; rest_row 300]
  = Ok [candle_at 100; candle_at 200; candle_at 300] /\
  _candles (sys_feed (exec awaiting_300
                        (LFillReturn (Ok [rest_row 100; rest_row 200; rest_row 300]))))
  = [candle_at 100; candle_at 200] ++ _candles (sys_feed awaiting_300).
Proof.
  assert (Hb : (length (_candles (sys_feed awaiting_300)) <= maxlen (sys_feed awaiting_300))%nat)
    by (cbn; lia).
  split; [exact Hb|]. split; [reflexivity|]. split; [reflexivity|].
  exact (proj1 (proj2 (proj2
           (backfill_prepend_keeps_buffer awaiting_300 300
              [rest_row 100; rest_row 200; rest_row 300]
              [candle_at 100; candle_at 200; candle_at 300] Hb eq_refl eq_refl)))).
Defined.

(** Scenario A: three live candles fill a buffer of capacity 3. *)
Example scenario_live_messages :
  let s := run (init_system 3)
               [LMessage (kline_message 100 11); LMessage (kline_message 200 11);
                LMessage (kline_message 300 11)] in
  _candles (sys_feed s) = [candle_at 100; candle_at 200; candle_at 300] /\
  is_ready (sys_feed s) = true.
Proof. split; reflexivity. Qed.

(** A fourth candle evicts the oldest one. *)
Example live_message_on_full_buffer :
  _candles (sys_feed (exec full_system (LMessage (kline_message 300 11))))
  = [candle_at 200; candle_at 300].
Proof. reflexivity. Qed.

(** A message that is not a kline event, and a disconnection marker,
    leave the feed as it is, event included. *)
Example other_messages_are_skipped :
  process_message (init_feed 3) (DataDict (Some "trade"%string) None) = Ok (init_feed 3) /\
  process_message (init_feed 3) DataNone = Ok (init_feed 3 : feed Z).
Proof. split; reflexivity. Qed.

(* ================================================================= *)
(** * Part III: more of the feed *)
(* ================================================================= *)

(** ** Runs without assumptions on the environment *)

Section MoreRunFacts.
Context {num : Type} `{Numeric num}.
Implicit Types (f : feed num) (s : system num) (l : label num)
               (d : list (row num)) (r : row num).

Lemma process_message_event f data f' :
  process_message f data = Ok f' ->
  _ws_ready_event f' = true /\
  (exists e k, data = DataDict e (Some k) /\ is_kline_event e = true)
  \/ f' = f.
Proof.
  unfold process_message. intros Hp.
  destruct data as [|e k]; [right; congruence|].
  destruct (is_kline_event e) eqn:He; [|right; congruence].
  destruct k as [k|]; [|discriminate].
  left. split; [|eauto].
  destruct (length (_candles f) =? 0)%nat; [injection Hp as <-; reflexivity|].
  destruct (last (_candles f) []); [discriminate|].
  destruct (negb _); injection Hp as <-; reflexivity.
Qed.

Lemma exec_event_kept s l :
  _ws_ready_event (sys_feed s) = true ->
  _ws_ready_event (sys_feed (exec s l)) = true.
Proof.
  intros Hset. destruct l as [data | | r]; cbn [exec].
  - destruct (process_message (sys_feed s) data) as [f'|e] eqn:Hp; [|exact Hset].
    cbn [sys_feed]. destruct (process_message_event _ _ _ Hp) as [[Hs _] | ->]; assumption.
  - destruct (sys_fill s); try exact Hset.
    destruct (fill_candles_begin (sys_feed s)) as [[|x lim]|e]; exact Hset.
  - destruct (sys_fill s); try exact Hset.
    destruct r as [response|e]; [|exact Hset].
    destruct (fetch_candles_array response); exact Hset.
Qed.

(** X1. The ready event is set by the handling of a kline message and by
    nothing else, and no step of the feed clears it: once set it stays set
    along every run. *)
Theorem ready_event_is_never_cleared s l ls :
  (_ws_ready_event (sys_feed (exec s l)) = true ->
   _ws_ready_event (sys_feed s) = true \/
   exists e k, l = LMessage (DataDict e (Some k)) /\ is_kline_event e = true) /\
  (_ws_ready_event (sys_feed s) = true ->
   _ws_ready_event (sys_feed (run s ls)) = true).
Proof.
  split.
  - destruct l as [data | | r]; cbn [exec].
    + destruct (process_message (sys_feed s) data) as [f'|e] eqn:Hp; [|auto].
      cbn [sys_feed]. intros Hset.
      destruct (process_message_event _ _ _ Hp) as [[_ (e & k & -> & He)] | ->];
        [right; eauto | left; exact Hset].
    + destruct (sys_fill s); auto.
      destruct (fill_candles_begin (sys_feed s)) as [[|x lim]|e]; auto.
    + destruct (sys_fill s); auto.
      destruct r as [response|e]; auto.
      destruct (fetch_candles_array response); auto.
  - revert s. unfold run. induction ls as [|l0 ls IH]; intros s Hset; cbn [fold_left].
    + exact Hset.
    + apply IH, exec_event_kept, Hset.
Qed.

Lemma exec_bounded s l :
  (length (_candles (sys_feed s)) <= maxlen (sys_feed s))%nat ->
  (length (_candles (sys_feed (exec s l))) <= maxlen (sys_feed (exec s l)))%nat.
Proof.
  intros Hb. rewrite exec_maxlen.
  destruct l as [data | | r]; cbn [exec].
  - destruct (process_message (sys_feed s) data) as [f'|e] eqn:Hp; [|exact Hb].
    cbn [sys_feed].
    destruct (process_message_shape _ _ _ Hp) as [_ [-> | [k ->]]]; [exact Hb|].
    apply deque_append_bounded, Hb.
  - destruct (sys_fill s); try exact Hb.
    destruct (fill_candles_begin (sys_feed s)) as [[|x lim]|e]; exact Hb.
  - destruct (sys_fill s); try exact Hb.
    destruct r as [response|e]; [|exact Hb].
    destruct (fetch_candles_array response); [|exact Hb].
    cbn. apply deque_extendleft_bounded, Hb.
Qed.

Lemma run_bounded ls : forall s,
  (length (_candles (sys_feed s)) <= maxlen (sys_feed s))%nat ->
  (length (_candles (sys_feed (run s ls))) <= maxlen (sys_feed (run s ls)))%nat.
Proof.
  unfold run. induction ls as [|l ls IH]; intros s Hb; cbn [fold_left].
  - exact Hb.
  - apply IH, exec_bounded, Hb.
Qed.

(** X2. Whatever the stream delivers and whatever the REST calls return,
    in whatever order, the capacity of the buffer stays the one given at
    construction and the buffer never holds more records than that. *)
Theorem size_bounded_on_every_run (max_records : nat) (ls : list (label num)) :
  let f := sys_feed (run (init_system max_records) ls) in
  maxlen f = max_records /\ (length (_candles f) <= max_records)%nat.
Proof.
  intros f.
  assert (Hm : maxlen f = max_records) by (subst f; rewrite run_maxlen; reflexivity).
  split; [exact Hm|]. subst f.
  pose proof (run_bounded ls (init_system max_records)) as Hb.
  rewrite run_maxlen in Hb. apply Hb. cbn. lia.
Qed.

(** X3. In every state that a run reaches: the return of a fetch puts
    rows in front of the buffer and drops nothing, and the handling of a
    message either leaves the buffer alone or puts one record behind it,
    dropping the head only when the buffer is full. *)
Theorem buffer_changes_on_every_run (max_records : nat) (ls : list (label num))
        (r : result (list (list num))) (data : ws_data num) :
  let s := run (init_system max_records) ls in
  let old := _candles (sys_feed s) in
  (exists kept, _candles (sys_feed (exec s (LFillReturn r))) = kept ++ old) /\
  (_candles (sys_feed (exec s (LMessage data))) = old \/
   exists k,
     ((length old < max_records)%nat /\
      _candles (sys_feed (exec s (LMessage data))) = old ++ [kline_array k]) \/
     (length old = max_records /\
      _candles (sys_feed (exec s (LMessage data))) = tl (old ++ [kline_array k]))).
Proof.
  intros s old.
  destruct (size_bounded_on_every_run max_records ls) as [Hm Hb].
  fold s in Hm, Hb. fold old in Hb.
  split.
  - cbn [exec].
    destruct (sys_fill s); try (exists []; reflexivity).
    destruct r as [response|e]; [|exists []; reflexivity].
    destruct (fetch_candles_array response) as [candles|e]; [|exists []; reflexivity].
    exists (kept_rows (sys_feed s) candles).
    cbn [sys_feed]. apply fill_candles_apply_prepends. rewrite Hm. exact Hb.
  - cbn [exec].
    destruct (process_message (sys_feed s) data) as [f'|e] eqn:Hp; [|left; reflexivity].
    cbn [sys_feed].
    destruct (process_message_shape _ _ _ Hp) as [_ [-> | [k ->]]]; [left; reflexivity|].
    right. exists k. rewrite Hm. fold old. unfold deque_append.
    rewrite length_app. cbn [length].
    destruct (Nat.ltb_spec max_records (length old + 1)).
    + right. split; [lia|reflexivity].
    + left. split; [lia|reflexivity].
Qed.

(** X4. A feed constructed with capacity 0: its buffer is empty in every
    state, [is_ready] holds from the start, and no pass of the fill loop
    makes a request. *)
Theorem zero_capacity_feed (ls : list (label num)) (sc : script num) (ws : option nat) :
  let f := sys_feed (run (init_system 0) ls) in
  _candles f = [] /\
  is_ready f = true /\
  fetch_requests (trace_of (fill_candles_iteration sc {| w_feed := f; w_ws := ws |})) = [].
Proof.
  intros f.
  destruct (size_bounded_on_every_run 0 ls) as [Hm Hb]. fold f in Hm, Hb.
  assert (Hd : _candles f = []) by (destruct (_candles f); [reflexivity | cbn in Hb; lia]).
  split; [exact Hd|]. split.
  - unfold is_ready. rewrite Hd, Hm. reflexivity.
  - unfold fill_candles_iteration, trace_of, bind, get_feed, lift. cbn [w_feed].
    unfold fill_candles_begin, missing_records. rewrite Hd, Hm. cbn.
    destruct (_ws_ready_event f); unfold ret, _sleep, await; cbn;
      destruct (sleep_out sc); reflexivity.
Qed.

(** X5. When a fetch returns, the buffer grows by the smaller of the
    missing count and the number of fetched rows less one; a response with
    one row more than is missing makes the buffer full at once. *)
Theorem backfill_growth s b response candles :
  (length (_candles (sys_feed s)) <= maxlen (sys_feed s))%nat ->
  sys_fill s = FillAwaiting b ->
  fetch_candles_array response = Ok candles ->
  let f := sys_feed s in
  let f' := sys_feed (exec s (LFillReturn (Ok response))) in
  Z.of_nat (length (_candles f')) =
    Z.of_nat (length (_candles f)) + Z.min (missing_records f) (Z.of_nat (length candles) - 1) /\
  (missing_records f + 1 <= Z.of_nat (length candles) -> is_ready f' = true).
Proof.
  intros Hb Hpc Hfetch f f'.
  assert (Hf' : f' = fill_candles_apply f candles).
  { subst f' f. cbn. rewrite Hpc, Hfetch. reflexivity. }
  pose proof (missing_records_nonneg f Hb) as Hm.
  pose proof (length_py_slice_tail (missing_records f) candles Hm) as Hl.
  fold (kept_rows f candles) in Hl.
  destruct (fetch_candles_array_length _ _ Hfetch) as [Hlen Hne].
  assert (0 < length candles)%nat.
  { rewrite Hlen. destruct response; [congruence | cbn; lia]. }
  assert (Hnew : _candles f' = kept_rows f candles ++ _candles f).
  { rewrite Hf'. apply fill_candles_apply_prepends, Hb. }
  assert (Hsize : Z.of_nat (length (_candles f')) =
                  Z.of_nat (length (_candles f)) +
                  Z.min (missing_records f) (Z.of_nat (length candles) - 1)).
  { rewrite Hnew, length_app. lia. }
  split; [exact Hsize|].
  intros Henough. unfold is_ready. apply Nat.eqb_eq.
  assert (Hmax : maxlen f' = maxlen f) by (rewrite Hf'; reflexivity).
  rewrite Hmax. unfold missing_records in *. lia.
Qed.

Lemma increasingb_last_two d a b :
  increasingb (d ++ [a; b]) = true -> row_ltb a b = true.
Proof.
  induction d as [|r0 d IH]; cbn [app].
  - cbn. intros Hi. apply andb_true_iff in Hi. apply Hi.
  - intros Hi. apply IH. eapply increasingb_cons. exact Hi.
Qed.

(** X6. The live handler compares a kline with the tail record only for
    equality of open times.  A kline that opens before the tail record is
    appended like a new one, and the buffer, if it has room for two
    records, is then out of order. *)
Theorem stale_kline_breaks_order f e k x rest :
  is_kline_event e = true ->
  (2 <= maxlen f)%nat ->
  last (_candles f) [] = x :: rest ->
  k_t k < int_of x ->
  exists f',
    process_message f (DataDict e (Some k)) = Ok f' /\
    _candles f' = deque_append (maxlen f) (_candles f) (kline_array k) /\
    increasingb (_candles f') = false.
Proof.
  intros He Hcap Hlast Hlt.
  assert (Hne : _candles f <> []).
  { intros Hnil. rewrite Hnil in Hlast. discriminate. }
  exists (set_ready (set_candles f (deque_append (maxlen f) (_candles f) (kline_array k)))).
  split; [|split; [reflexivity|]].
  - unfold process_message. rewrite He.
    destruct (_candles f) as [|r0 d0] eqn:Hd; [congruence|].
    cbn [length Nat.eqb]. rewrite Hlast.
    destruct (Z.eqb_spec (k_t k) (int_of x)); [lia|]. reflexivity.
  - cbn [_candles set_ready set_candles].
    destruct (increasingb (deque_append (maxlen f) (_candles f) (kline_array k))) eqn:Hi;
      [|reflexivity].
    exfalso.
    destruct (exists_last Hne) as (d0 & xr & Hd).
    assert (Hxr : xr = x :: rest).
    { rewrite Hd, last_last in Hlast. exact Hlast. }
    subst xr. rewrite Hd in Hi. unfold deque_append in Hi.
    rewrite <- app_assoc in Hi. cbn [app] in Hi.
    assert (Hbad : row_ltb (x :: rest) (kline_array k) = false).
    { cbn. rewrite int_of_int. apply Z.ltb_ge. lia. }
    destruct (maxlen f <? _)%nat eqn:Htrim.
    + destruct d0 as [|r0 d0].
      * apply Nat.ltb_lt in Htrim. cbn in Htrim. lia.
      * cbn [app tl] in Hi. apply increasingb_last_two in Hi. congruence.
    + apply increasingb_last_two in Hi. congruence.
Qed.

(** X7. On every run in which the rows of the REST responses have one
    column more than [columns] has names, every record in the buffer has
    exactly as many entries as [columns] has names. *)
Theorem records_match_columns (max_records : nat) (ls : list (label num)) :
  respects response_has_all_columns (init_system max_records) ls = true ->
  Forall (fun r => length r = length columns)
         (_candles (sys_feed (run (init_system max_records) ls))).
Proof.
  assert (Hstep : forall s l,
             Forall (fun r => length r = length columns) (_candles (sys_feed s)) ->
             response_has_all_columns s l = true ->
             Forall (fun r => length r = length columns) (_candles (sys_feed (exec s l)))).
  { intros s l Hall Hw. destruct l as [data | | r]; cbn [exec].
    - destruct (process_message (sys_feed s) data) as [f'|e] eqn:Hp; [|exact Hall].
      cbn [sys_feed].
      destruct (process_message_shape _ _ _ Hp) as [_ [-> | [k ->]]]; [exact Hall|].
      apply Forall_deque_append; [exact Hall|reflexivity].
    - destruct (sys_fill s); try exact Hall.
      destruct (fill_candles_begin (sys_feed s)) as [[|x lim]|e]; exact Hall.
    - destruct (sys_fill s); try exact Hall.
      destruct r as [response|e]; [|exact Hall].
      destruct (fetch_candles_array response) as [candles|e] eqn:Hfetch; [|exact Hall].
      cbn [sys_feed fill_candles_apply set_candles _candles].
      apply Forall_deque_extendleft; [exact Hall|].
      apply Forall_rev, Forall_forall. intros r Hin. apply in_py_slice in Hin.
      cbn [response_has_all_columns] in Hw.
      unfold fetch_candles_array in Hfetch.
      destruct response as [|r0 rest]; [discriminate|].
      match type of Hfetch with (if ?c then _ else _) = _ => destruct c end;
        [|discriminate].
      injection Hfetch as <-.
      change (In r (map (fun r => map astype_float (py_slice 0 (-1) r)) (r0 :: rest))) in Hin.
      apply in_map_iff in Hin. destruct Hin as (r' & <- & Hin).
      rewrite forallb_forall in Hw. specialize (Hw _ Hin). apply Nat.eqb_eq in Hw.
      rewrite length_map, py_slice_drop_last, removelast_firstn_len, length_firstn.
      rewrite Hw. cbn. lia. }
  assert (Hinit : forall s0 : system num,
             Forall (fun r => length r = length columns) (_candles (sys_feed s0)) ->
             respects response_has_all_columns s0 ls = true ->
             Forall (fun r => length r = length columns) (_candles (sys_feed (run s0 ls)))).
  { unfold run. induction ls as [|l ls IH]; intros s0 Hall Hr; cbn [fold_left].
    - exact Hall.
    - cbn [respects] in Hr. apply andb_true_iff in Hr. destruct Hr as [Hl Hr].
      apply IH; [|exact Hr]. apply Hstep; assumption. }
  intros Hr. apply Hinit; [constructor|exact Hr].
Qed.

(** X24. Once the buffer is full, no later pass of the fill loop makes a
    request, whatever has happened in between. *)
Theorem full_buffer_stops_backfill s ls (sc : script num) (ws : option nat) :
  is_ready (sys_feed s) = true ->
  fetch_requests
    (trace_of (fill_candles_iteration sc
                 {| w_feed := sys_feed (run s ls); w_ws := ws |})) = [].
Proof.
  intros Hr. pose proof (run_ready ls s Hr) as Hfull.
  set (f := sys_feed (run s ls)) in *.
  unfold is_ready in Hfull. apply Nat.eqb_eq in Hfull.
  unfold fill_candles_iteration, trace_of, bind, get_feed, lift. cbn [w_feed].
  unfold fill_candles_begin, missing_records. rewrite Hfull, Z.sub_diag. cbn.
  destruct (_ws_ready_event f); unfold ret, _sleep, await; cbn;
    destruct (sleep_out sc); reflexivity.
Qed.

Lemma run_before_first_kline ls : forall s,
  existsb is_kline_label ls = false ->
  _ws_ready_event (sys_feed s) = false ->
  _candles (sys_feed s) = [] ->
  sys_fill s = FillIdle ->
  _ws_ready_event (sys_feed (run s ls)) = false /\
  _candles (sys_feed (run s ls)) = [].
Proof.
  unfold run. induction ls as [|l ls IH]; intros s Hno He Hd Hpc; cbn [fold_left];
    [auto|].
  cbn [existsb] in Hno. apply orb_false_iff in Hno. destruct Hno as [Hl Hno].
  assert (Hsame : exec s l = s).
  { destruct l as [data | | r]; cbn [exec].
    - destruct data as [|e k]; cbn [process_message]; [destruct s; reflexivity|].
      cbn [is_kline_label] in Hl. rewrite Hl. destruct s; reflexivity.
    - rewrite Hpc. unfold fill_candles_begin. rewrite He. reflexivity.
    - rewrite Hpc. reflexivity. }
  rewrite Hsame. apply IH; assumption.
Qed.

(** X25. Until the first kline event has been handled, the ready event is
    not set, the buffer is empty and no pass of the fill loop makes a
    request: whatever else the stream delivers, the backfill stays inert. *)
Theorem backfill_waits_for_first_kline (max_records : nat) (ls : list (label num))
        (sc : script num) (ws : option nat) :
  existsb is_kline_label ls = false ->
  let f := sys_feed (run (init_system max_records) ls) in
  _ws_ready_event f = false /\
  _candles f = [] /\
  fetch_requests (trace_of (fill_candles_iteration sc {| w_feed := f; w_ws := ws |})) = [].
Proof.
  intros Hno f.
  destruct (run_before_first_kline ls (init_system max_records) Hno)
    as [He Hd]; try reflexivity.
  fold f in He, Hd. split; [exact He|]. split; [exact Hd|].
  unfold fill_candles_iteration, trace_of, bind, get_feed, lift. cbn [w_feed].
  unfold fill_candles_begin. rewrite He. unfold ret, _sleep, await. cbn.
  destruct (sleep_out sc); reflexivity.
Qed.

End MoreRunFacts.

(** ** Task bookkeeping, for any sequence of calls *)

Lemma cancel_other_coroutine (c : coroutine) (ts : list task) : forall i t,
  nth_error ts i = Some t ->
  is_coro c t = false ->
  filter (task_running c) (cancel ts i) = filter (task_running c) ts.
Proof.
  induction ts as [|t0 ts IH]; intros i t Hnth Hcoro; [reflexivity|].
  destruct i as [|i]; cbn [cancel filter nth_error] in *.
  - injection Hnth as ->. unfold task_running, is_coro in *. cbn [task_coro].
    rewrite Hcoro. reflexivity.
  - rewrite (IH i t Hnth Hcoro). reflexivity.
Qed.

Lemma cancel_running_task (c : coroutine) (ts : list task) : forall i t,
  nth_error ts i = Some t ->
  task_running c t = true ->
  length (filter (task_running c) ts) =
  S (length (filter (task_running c) (cancel ts i))).
Proof.
  induction ts as [|t0 ts IH]; intros i t Hnth Hrun; [destruct i; discriminate|].
  destruct i as [|i]; cbn [cancel filter nth_error] in *.
  - injection Hnth as ->. rewrite Hrun.
    unfold task_running at 2. cbn [task_cancelled negb]. rewrite andb_false_r.
    reflexivity.
  - destruct (task_running c t0); cbn [length]; rewrite (IH i t Hnth Hrun); reflexivity.
Qed.

(** X15. After any sequence of [start_network] and [stop_network] calls
    on a fresh feed, one listen loop is running if the last call was
    [start_network] and none otherwise: every earlier listen task has
    been cancelled. *)
Theorem one_listen_loop_after_start (calls : list network_call) :
  let n := fold_left network_step calls init_network in
  running ListenForSubscriptions n =
  match last calls Stop with Start => 1%nat | Stop => 0%nat end.
Proof.
  cbv zeta.
  assert (Hinv : let n := fold_left network_step calls init_network in
            _fetch_candles_task n = None /\
            match _listen_candles_task n with
            | Some i =>
                nth_error (tasks n) i =
                  Some {| task_coro := ListenForSubscriptions; task_cancelled := false |} /\
                running ListenForSubscriptions n = 1%nat /\ last calls Stop = Start
            | None => running ListenForSubscriptions n = 0%nat /\ last calls Stop = Stop
            end).
  { cbv zeta. induction calls as [|c calls IH] using rev_ind.
    - cbn. auto.
    - rewrite fold_left_app, last_last. cbn [fold_left].
      set (n := fold_left network_step calls init_network) in *.
      destruct IH as (Hfetch & Hlisten).
      assert (Hstop : _fetch_candles_task (stop_network n) = None /\
                      _listen_candles_task (stop_network n) = None /\
                      running ListenForSubscriptions (stop_network n) = 0%nat).
      { unfold stop_network. rewrite Hfetch.
        destruct (_listen_candles_task n) as [i|] eqn:Hl; cbn.
        - destruct Hlisten as (Hnth & Hone & _).
          split; [exact Hfetch|]. split; [reflexivity|].
          unfold running in *. cbn [tasks].
          pose proof (cancel_running_task ListenForSubscriptions (tasks n) i _ Hnth eq_refl).
          lia.
        - rewrite Hl. destruct Hlisten as [Hzero _]. auto. }
      destruct Hstop as (Hf1 & Hl1 & Hzero).
      destruct c; cbn [network_step].
      + unfold start_network, safe_ensure_future.
        cbn [_fetch_candles_task _listen_candles_task tasks].
        split; [exact Hf1|]. split; [|split; [|reflexivity]].
        * rewrite nth_error_app2 by lia. rewrite Nat.sub_diag. reflexivity.
        * unfold running in *. cbn [tasks].
          rewrite !filter_app, !length_app, Hzero. reflexivity.
      + split; [exact Hf1|]. rewrite Hl1. auto. }
  cbv zeta in Hinv. destruct Hinv as [_ Hinv].
  destruct (_listen_candles_task (fold_left network_step calls init_network)).
  - destruct Hinv as (_ & -> & ->). reflexivity.
  - destruct Hinv as (-> & ->). reflexivity.
Qed.

(** X16. [stop_network] clears both attributes that it looks at, so a
    second [stop_network] changes nothing, and [start_network] after a
    [stop_network] does what [start_network] alone does. *)
Theorem stop_network_is_idempotent (n : network) :
  _fetch_candles_task (stop_network n) = None /\
  _listen_candles_task (stop_network n) = None /\
  stop_network (stop_network n) = stop_network n /\
  start_network (stop_network n) = start_network n.
Proof.
  assert (Hf : _fetch_candles_task (stop_network n) = None).
  { unfold stop_network.
    destruct (_fetch_candles_task n) eqn:Hfe, (_listen_candles_task n) eqn:Hl;
      cbn; rewrite ?Hl; cbn; auto. }
  assert (Hl : _listen_candles_task (stop_network n) = None).
  { unfold stop_network.
    destruct (_fetch_candles_task n) eqn:Hfe, (_listen_candles_task n) eqn:Hli;
      cbn; rewrite ?Hli; cbn; auto. }
  assert (Hss : stop_network (stop_network n) = stop_network n).
  { unfold stop_network at 1. rewrite Hf, Hl. reflexivity. }
  split; [exact Hf|]. split; [exact Hl|]. split; [exact Hss|].
  unfold start_network. rewrite Hss. reflexivity.
Qed.

(** ** Names *)

Lemma lower_char_not_upper (c : ascii) : is_upper (lower_char c) = false.
Proof. destruct c as [[] [] [] [] [] [] [] []]; reflexivity. Qed.

Lemma lower_char_hyphen (c : ascii) :
  Ascii.eqb "-"%char (lower_char c) = Ascii.eqb "-"%char c.
Proof. destruct c as [[] [] [] [] [] [] [] []]; reflexivity. Qed.

Lemma occurs_remove_hyphens (c : ascii) (s : string) :
  occurs c (remove_hyphens s) = if Ascii.eqb c "-"%char then false else occurs c s.
Proof.
  induction s as [|c' s IH]; cbn [remove_hyphens occurs].
  - destruct (Ascii.eqb c "-"%char); reflexivity.
  - destruct (Ascii.eqb_spec c' "-"%char) as [->|Hne].
    + rewrite IH. destruct (Ascii.eqb c "-"%char); reflexivity.
    + cbn [occurs]. rewrite IH.
      destruct (Ascii.eqb_spec c "-"%char) as [->|Hc]; [|reflexivity].
      destruct (Ascii.eqb_spec "-"%char c'); [congruence|reflexivity].
Qed.

Lemma remove_hyphens_without_hyphen (s : string) :
  occurs "-"%char s = false -> remove_hyphens s = s.
Proof.
  induction s as [|c' s IH]; cbn [remove_hyphens occurs]; [reflexivity|].
  intros Ho. apply orb_false_iff in Ho. destruct Ho as [Hc Hs].
  rewrite Ascii.eqb_sym in Hc. rewrite Hc, IH by assumption. reflexivity.
Qed.

Lemma occurs_lower (c : ascii) (s : string) :
  occurs c (lower s) = true -> is_upper c = false.
Proof.
  induction s as [|c' s IH]; cbn [lower occurs]; [discriminate|].
  intros Ho. apply orb_true_iff in Ho. destruct Ho as [Hc|Hs]; [|auto].
  apply Ascii.eqb_eq in Hc. subst c. apply lower_char_not_upper.
Qed.

Lemma occurs_hyphen_lower (s : string) :
  occurs "-"%char (lower s) = occurs "-"%char s.
Proof.
  induction s as [|c' s IH]; cbn [lower occurs]; [reflexivity|].
  rewrite lower_char_hyphen, IH. reflexivity.
Qed.

Section NameFacts.
Context {num : Type} `{Numeric num}.

(** X17. The symbol that a constructed feed sends to the exchange is the
    trading pair with its hyphens taken out: it holds no hyphen, every
    other character occurs in it exactly if it occurs in the trading pair,
    and a trading pair without hyphen is sent as it is. *)
Theorem exchange_symbol_has_no_hyphen
        (tp : string) (interval : option string) (max_records : option Z)
        (inst : instance num) :
  __init__ (Some tp) interval max_records = Constructed inst ->
  let c := inst_config inst in
  _trading_pair c = tp /\
  occurs "-"%char (_ex_trading_pair c) = false /\
  (forall ch, ch <> "-"%char -> occurs ch (_ex_trading_pair c) = occurs ch tp) /\
  (occurs "-"%char tp = false -> _ex_trading_pair c = tp).
Proof.
  unfold __init__.
  destruct (_ <? 0); [discriminate|].
  intros Hc. injection Hc as <-. cbn [inst_config _trading_pair _ex_trading_pair].
  split; [reflexivity|]. split; [|split].
  - rewrite occurs_remove_hyphens. reflexivity.
  - intros ch Hne. rewrite occurs_remove_hyphens.
    destruct (Ascii.eqb_spec ch "-"%char); [congruence|reflexivity].
  - apply remove_hyphens_without_hyphen.
Qed.

(** X18. The subscribe request of a constructed feed names exactly one
    channel: the lower-cased symbol, then ["@kline_"], then the interval;
    the symbol part holds neither an upper-case letter nor a hyphen. *)
Theorem subscribe_request_names_one_channel
        (tp : string) (interval : option string) (max_records : option Z)
        (inst : instance num) :
  __init__ (Some tp) interval max_records = Constructed inst ->
  let c := inst_config inst in
  sp_method (subscribe_request c) = "SUBSCRIBE"%string /\
  sp_id (subscribe_request c) = 1 /\
  sp_params (subscribe_request c) =
    [(lower (remove_hyphens tp) ++ "@kline_" ++
      match interval with Some i => i | None => "1m" end)%string] /\
  (forall ch, occurs ch (lower (remove_hyphens tp)) = true ->
              is_upper ch = false /\ ch <> "-"%char).
Proof.
  unfold __init__.
  destruct (_ <? 0); [discriminate|].
  intros Hc. injection Hc as <-.
  cbn [inst_config subscribe_request sp_method sp_id sp_params channel
       _ex_trading_pair _interval app].
  split; [reflexivity|]. split; [reflexivity|]. split; [reflexivity|].
  intros ch Ho. split; [eapply occurs_lower; exact Ho|].
  intros ->. rewrite occurs_hyphen_lower, occurs_remove_hyphens in Ho. discriminate.
Qed.


(** X20. [get_instance] calls the constructor without the trading pair
    that it needs: on a class whose shared instance is not set, every call
    ends in [TypeError] and the shared instance stays unset, however often
    it is called. *)
Theorem get_instance_never_succeeds (n : nat) :
  get_instance_calls (num := num) n None = (repeat TypeError n, None).
Proof.
  induction n as [|n IH]; [reflexivity|].
  cbn [get_instance_calls get_instance __init__ repeat]. rewrite IH. reflexivity.
Qed.

End NameFacts.

(** X21. The query of [fetch_candles] always carries the symbol, the
    interval and the limit; it carries [startTime] or [endTime] only for a
    time that is given and is not 0, so that a time of 0 is sent as no
    time at all; no key occurs twice. *)
Theorem fetch_params_keys (c : config) (start_time end_time limit : option Z) :
  let ps := fetch_params c start_time end_time limit in
  param "symbol" ps = Some (PStr (_ex_trading_pair c)) /\
  param "interval" ps = Some (PStr (_interval c)) /\
  param "limit" ps = Some (match limit with Some n => PInt n | None => PNone end) /\
  param "startTime" ps =
    match start_time with
    | Some z => if z =? 0 then None else Some (PInt z)
    | None => None
    end /\
  param "endTime" ps =
    match end_time with
    | Some z => if z =? 0 then None else Some (PInt z)
    | None => None
    end /\
  NoDup (map fst ps) /\
  fetch_params c start_time (Some 0) limit = fetch_params c start_time None limit /\
  fetch_params c (Some 0) end_time limit = fetch_params c None end_time limit.
Proof.
  unfold fetch_params, truthy.
  destruct start_time as [a|], end_time as [b|];
    try destruct (a =? 0); try destruct (b =? 0); cbn;
    repeat split;
    repeat (constructor; [cbn; intuition discriminate|]); constructor.
Qed.

(** ** Concrete runs for Part III *)

(** The event of [full_system] is still set after more steps. *)
Lemma ready_event_witness :
  _ws_ready_event (sys_feed full_system) = true /\
  _ws_ready_event (sys_feed (run full_system [LFillTick; LMessage DataNone])) = true.
Proof.
  split; [reflexivity|].
  exact (proj2 (ready_event_is_never_cleared full_system LFillTick
                  [LFillTick; LMessage DataNone]) eq_refl).
Defined.

(** Three rows for two missing records: the buffer of [feed_300] is full. *)
Lemma backfill_growth_witness :
  (length (_candles (sys_feed awaiting_300)) <= maxlen (sys_feed awaiting_300))%nat /\
  sys_fill awaiting_300 = FillAwaiting 300 /\
  fetch_candles_array [rest_row 100; rest_row 200; rest_row 300]
  = Ok [candle_at 100; candle_at 200; candle_at 300] /\
  is_ready (sys_feed (exec awaiting_300
                        (LFillReturn (Ok [rest_row 100; rest_row 200; rest_row 300]))))
  = true.
Proof.
  assert (Hb : (length (_candles (sys_feed awaiting_300)) <= maxlen (sys_feed awaiting_300))%nat)
    by (cbn; lia).
  assert (Hfetch : fetch_candles_array [rest_row 100; rest_row 200; rest_row 300]
                   = Ok [candle_at 100; candle_at 200; candle_at 300]) by reflexivity.
  split; [exact Hb|]. split; [reflexivity|]. split; [exact Hfetch|].
  apply (proj2 (backfill_growth awaiting_300 300
                  [rest_row 100; rest_row 200; rest_row 300]
                  [candle_at 100; candle_at 200; candle_at 300] Hb eq_refl Hfetch)).
  cbn. lia.
Defined.

(** A kline of 100 after the records of 200 and 300. *)
Lemma stale_kline_witness :
  last (_candles feed_200_300) [] = candle_at 300 /\
  exists f',
    process_message feed_200_300 (kline_message 100 11) = Ok f' /\
    _candles f' = [candle_at 200; candle_at 300; candle_at 100] /\
    increasingb (_candles f') = false.
Proof.
  split; [reflexivity|].
  destruct (stale_kline_breaks_order feed_200_300 (Some "kline"%string) (kline_at 100 11)
              300 (tl (candle_at 300)) eq_refl) as (f' & Hp & Hd & Hi);
    [cbn; lia | reflexivity | reflexivity |].
  exists f'. split; [exact Hp|]. split; [exact Hd|exact Hi].
Defined.

(** The records of [ordered_run] have eleven entries each. *)
Lemma records_match_columns_witness :
  respects response_has_all_columns (init_system 3) ordered_run = true /\
  Forall (fun r => length r = 11%nat)
         (_candles (sys_feed (run (init_system 3) ordered_run))).
Proof.
  split; [reflexivity|].
  exact (records_match_columns 3%nat ordered_run eq_refl).
Defined.

(** A REST call that raises: logged, slept, the feed of 300 as before. *)
Lemma backfill_failure_witness :
  fill_candles_begin feed_300 = Ok (FillRequest 300 3) /\
  outcome_of (fetch_candles rest_fails 300 3 {| w_feed := feed_300; w_ws := None |})
  = Raises OtherError /\
  outcome_of (fill_candles_iteration rest_fails {| w_feed := feed_300; w_ws := None |})
  = Returns tt /\
  w_feed (world_of (fill_candles_iteration rest_fails {| w_feed := feed_300; w_ws := None |}))
  = feed_300.
Proof.
  split; [reflexivity|]. split; [reflexivity|].
  destruct (backfill_failure_is_not_fatal rest_fails {| w_feed := feed_300; w_ws := None |}
              300 3 OtherError eq_refl eq_refl eq_refl) as (_ & Hw & Hout).
  split; [exact (Hout eq_refl)|]. rewrite Hw. reflexivity.
Defined.

(** The kline that [dropped_stream] delivers before it breaks is kept. *)
Lemma listen_pass_witness :
  connect_out dropped_stream = Ok 0%nat /\
  send_out dropped_stream = Ok tt /\
  _candles (w_feed (world_of (listen_iteration dropped_stream fresh_world)))
  = [candle_at 300].
Proof.
  split; [reflexivity|]. split; [reflexivity|].
  rewrite (listen_pass_handles_messages dropped_stream fresh_world 0%nat FillIdle
             eq_refl eq_refl eq_refl).
  reflexivity.
Defined.

(** A stream that ends at once: connect, subscribe, close, no sleep. *)
Lemma exhausted_stream_witness :
  stream_end (quiet_script []) = None /\
  delays (trace_of (listen_iteration (quiet_script []) fresh_world)) = [] /\
  outcome_of (listen_iteration (quiet_script []) fresh_world) = Returns tt.
Proof.
  split; [reflexivity|].
  destruct (exhausted_stream_reconnects (quiet_script []) fresh_world 0%nat
              eq_refl eq_refl eq_refl eq_refl) as [Ht Hout].
  split; [rewrite Ht; reflexivity|]. exact (Hout eq_refl).
Defined.

(** A subscribe failure on a fresh feed: the loop hangs, the second pass
    never runs. *)
Lemma subscribe_hang_witness :
  _ws_ready_event (w_feed fresh_world) = false /\
  outcome_of (listen_for_subscriptions [subscribe_fails; quiet_script []] fresh_world)
  = Suspended.
Proof.
  split; [reflexivity|].
  exact (proj1 (subscribe_failure_before_first_kline_hangs subscribe_fails
                  [quiet_script []] fresh_world 0%nat OtherError
                  eq_refl eq_refl eq_refl eq_refl eq_refl)).
Defined.

(** A failed connect after a pass that connected assistant 0: assistant 0
    is closed again. *)
Lemma failed_connect_witness :
  connect_out connect_fails = Raise ConnectionError /\
  trace_of (listen_iteration connect_fails world_300) =
  [EvCall CConnect (Threw ConnectionError); EvLog LogWarning;
   EvCall (CDisconnect 0%nat) Returned].
Proof.
  split; [reflexivity|].
  exact (proj1 (proj1 (failed_connect_closes_previous_assistant connect_fails world_300)
                  ConnectionError eq_refl eq_refl)).
Defined.

(** BTC-USDT is sent as BTCUSDT. *)
Lemma exchange_symbol_witness :
  __init__ (Some "BTC-USDT"%string) None None = Constructed btc_usdt_feed /\
  occurs "-"%char (_ex_trading_pair (inst_config btc_usdt_feed)) = false.
Proof.
  split; [reflexivity|].
  exact (proj1 (proj2 (exchange_symbol_has_no_hyphen "BTC-USDT"%string None None
                         btc_usdt_feed eq_refl))).
Defined.

(** BTC-USDT at the default interval subscribes to btcusdt@kline_1m. *)
Lemma subscribe_request_witness :
  __init__ (Some "BTC-USDT"%string) None None = Constructed btc_usdt_feed /\
  sp_params (subscribe_request (inst_config btc_usdt_feed)) = ["btcusdt@kline_1m"%string].
Proof.
  split; [reflexivity|].
  exact (proj1 (proj2 (proj2 (subscribe_request_names_one_channel "BTC-USDT"%string
                                None None btc_usdt_feed eq_refl)))).
Defined.

(** A full buffer: the later pass asks for nothing. *)
Lemma full_buffer_witness :
  is_ready (sys_feed full_system) = true /\
  fetch_requests
    (trace_of (fill_candles_iteration (quiet_script [])
                 {| w_feed := sys_feed (run full_system [LMessage (kline_message 300 11)]);
                    w_ws := None |})) = [].
Proof.
  split; [reflexivity|].
  exact (full_buffer_stops_backfill full_system [LMessage (kline_message 300 11)]
           (quiet_script []) None eq_refl).
Defined.

(** No kline in [quiet_run]: the event is unset and nothing is asked for. *)
Lemma first_kline_witness :
  existsb is_kline_label quiet_run = false /\
  _ws_ready_event (sys_feed (run (init_system 3) quiet_run)) = false.
Proof.
  split; [reflexivity|].
  exact (proj1 (backfill_waits_for_first_kline 3%nat quiet_run (quiet_script []) None
                  eq_refl)).
Defined.
